(** * The Mandelbrot field compute engine (src/main.cpp)

    A shallow embedding of the class [Mandelbrot]: the escape-time kernel
    [ComputeMandelbrot], the palette [GetColor] and its table [colors], the
    slice renderer [UpdateImageSlice] and the frame update [UpdateImage]
    with its slice-dispatch loop; and of the interaction loop of [main]:
    the event handler, the redraw flag and the turns of the loop.  The
    window, the event queue and the drawing belong to SFML: the events
    are an input, and loading the texture is taken to succeed.

    Numbers.  A C++ [double] is an IEEE 754 binary64 value, and every
    [+], [-], [*], [/] on doubles is one correctly rounded operation
    (round to nearest, ties to even; no fused multiply-add, no extended
    precision).  Rocq's primitive floats are exactly that, so the code is
    evaluated on them.  The engine itself is written once over an
    interface [DoubleOps] of the operations the source uses, so that the
    same text can also be read over the real numbers, where no operation
    rounds.

    Integers.  An [int] is kept in [Z].  The indices and counters of the
    engine stay below [2 * IMAGE_HEIGHT], [IMAGE_WIDTH] and
    [kMaxIterations] ([dispatch_run_index], [ComputeMandelbrot_range]),
    far inside the 32-bit range, so no wrap-around has to be written out.

    Threads.  [UpdateImage] starts one thread per slice and joins them
    all.  The threads write disjoint rows of the surface, and the frame
    is the same in whatever order the slices run ([run_threads_order]);
    the model runs them in the order they were started.  Creating a
    thread is taken to succeed. *)

From Stdlib Require Import ZArith List Bool Lia Floats QArith Qround Reals Lra.
From stdpp Require Import base list.

Local Open Scope Z_scope.

(** ** Constants of the source *)

Definition IMAGE_WIDTH : Z := 960.
Definition IMAGE_HEIGHT : Z := 540.
Definition kMaxIterations : Z := 1000.

(** ** The arithmetic of [double] *)

Class DoubleOps (D : Type) : Type := {
  dadd : D -> D -> D;
  dsub : D -> D -> D;
  dmul : D -> D -> D;
  ddiv : D -> D -> D;
  (** [dgt a b] is the C++ test [a > b]. *)
  dgt : D -> D -> bool;
  (** the conversion of an [int] to [double]; also used for the literals
      [2.0], [4.0] and for the [int] operands that C++ promotes. *)
  of_int : Z -> D
}.

Declare Scope double_scope.
Delimit Scope double_scope with D.
Infix "+" := dadd : double_scope.
Infix "-" := dsub : double_scope.
Infix "*" := dmul : double_scope.
Infix "/" := ddiv : double_scope.

(** [int] to binary64: exact for every 32-bit integer. *)
Definition float_of_int (z : Z) : float :=
  if z <? 0 then PrimFloat.opp (PrimFloat.of_uint63 (Uint63.of_Z (- z)))
  else PrimFloat.of_uint63 (Uint63.of_Z z).

#[export] Instance binary64 : DoubleOps float := {
  dadd := PrimFloat.add;
  dsub := PrimFloat.sub;
  dmul := PrimFloat.mul;
  ddiv := PrimFloat.div;
  dgt := fun a b => PrimFloat.ltb b a;
  of_int := float_of_int
}.


(** ** The iteration kernel *)

Section Kernel.
Context {D : Type} `{DoubleOps D}.

(** The [for] loop of [ComputeMandelbrot]: [n] is the number of
    iterations left, [kMaxIterations - counter]. *)
Fixpoint ComputeMandelbrot_loop (n : nat) (counter : Z)
    (c_real c_imag z_real z_imag : D) : Z :=
  match n with
  | O => kMaxIterations
  | S n' =>
      let r2 := (z_real * z_real)%D in
      let i2 := (z_imag * z_imag)%D in
      if dgt (r2 + i2)%D (of_int 4) then counter
      else
        let z_imag' := (of_int 2 * z_real * z_imag + c_imag)%D in
        let z_real' := (r2 - i2 + c_real)%D in
        ComputeMandelbrot_loop n' (counter + 1) c_real c_imag z_real' z_imag'
  end.

Definition ComputeMandelbrot (c_real c_imag : D) : Z :=
  ComputeMandelbrot_loop (Z.to_nat kMaxIterations) 0 c_real c_imag c_real c_imag.

End Kernel.

(** ** Colors, the palette and the image surface *)

(** [sf::Color]: four 8-bit channels. *)
Record Color : Type := mkColor { red : Z; green : Z; blue : Z; alpha : Z }.

(** The constructor [sf::Color(r, g, b)]: each [int] argument is converted
    to [Uint8], that is reduced modulo 256; alpha defaults to 255. *)
Definition sfColor (r g b : Z) : Color :=
  mkColor (r mod 256) (g mod 256) (b mod 256) 255.

(** The cast [(int) d] of a double: truncation toward zero; it is
    undefined ([None]) for a NaN, an infinity or a value out of the range
    of [int]. *)
Definition double_to_int (d : float) : option Z :=
  match Prim2SF d with
  | S754_zero _ => Some 0
  | S754_finite s m e =>
      let mag := if 0 <=? e then Z.pos m * 2 ^ e else Z.pos m / 2 ^ (- e) in
      let v := if s then - mag else mag in
      if (- 2 ^ 31 <=? v) && (v <? 2 ^ 31) then Some v else None
  | _ => None
  end.

(** The three [int] channels of [GetColor] before they are stored. *)
Definition GetColor_channels (iterations : Z) : option (Z * Z * Z) :=
  let t : float := (of_int iterations / of_int kMaxIterations)%D in
  let one : float := of_int 1 in
  match double_to_int (of_int 9 * (one - t) * t * t * t * of_int 255)%D,
        double_to_int (of_int 15 * (one - t) * (one - t) * t * t * of_int 255)%D,
        double_to_int (8.5%float * (one - t) * (one - t) * (one - t) * t * of_int 255)%D
  with
  | Some r, Some g, Some b => Some (r, g, b)
  | _, _, _ => None
  end.

Definition GetColor (iterations : Z) : option Color :=
  match GetColor_channels iterations with
  | Some (r, g, b) => Some (sfColor r g b)
  | None => None
  end.

(** The object: its only field is the table [colors]. *)
Record Mandelbrot : Type := mkMandelbrot { colors : list Color }.

(** The constructor's loop [for (i = 0; i <= kMaxIterations; ++i)
    colors[i] = GetColor(i)], over the [n] indices from [i] on. *)
Fixpoint fill_colors (n : nat) (i : Z) : option (list Color) :=
  match n with
  | O => Some []
  | S n' =>
      match GetColor i, fill_colors n' (i + 1) with
      | Some c, Some cs => Some (c :: cs)
      | _, _ => None
      end
  end.

Definition Mandelbrot_new : option Mandelbrot :=
  match fill_colors (Z.to_nat (kMaxIterations + 1)) 0 with
  | Some cs => Some (mkMandelbrot cs)
  | None => None
  end.

(** [colors[value]]; the array is not bounds checked, and the model gives
    black outside of it (never reached, see [ComputeMandelbrot_range]). *)
Definition color_at (this : Mandelbrot) (value : Z) : Color :=
  default (mkColor 0 0 0 255) (colors this !! Z.to_nat value).

(** [sf::Image]: its size and its pixels, row after row. *)
Record Image : Type := mkImage { size_x : Z; size_y : Z; pixels : list Color }.

Definition pixel_index (img : Image) (x y : Z) : nat :=
  Z.to_nat (x + y * size_x img).

Definition getPixel (img : Image) (x y : Z) : option Color :=
  pixels img !! pixel_index img x y.

(** [setPixel] is not bounds checked either; the list update leaves the
    image as it is when the index is past the end. *)
Definition setPixel (img : Image) (x y : Z) (c : Color) : Image :=
  mkImage (size_x img) (size_y img) (<[pixel_index img x y := c]> (pixels img)).

(** A surface of the size the engine expects. *)
Definition surface (img : Image) : Prop :=
  size_x img = IMAGE_WIDTH /\ size_y img = IMAGE_HEIGHT /\
  length (pixels img) = Z.to_nat (IMAGE_WIDTH * IMAGE_HEIGHT).

(** ** Rendering a slice *)

Section Slice.
Context {D : Type} `{DoubleOps D}.
Variable this : Mandelbrot.

(** The inner loop, [for (y = minY; y < maxY; y++, c_imag += zoom)],
    with [n] rows left. *)
Fixpoint rows_loop (n : nat) (zoom : D) (img : Image) (x y : Z)
    (c_real c_imag : D) : Image :=
  match n with
  | O => img
  | S n' =>
      let value := ComputeMandelbrot c_real c_imag in
      let img' := setPixel img x y (color_at this value) in
      rows_loop n' zoom img' x (y + 1) c_real (c_imag + zoom)%D
  end.

(** The outer loop, [for (x = 0; x < IMAGE_WIDTH; x++, c_real += zoom)],
    with [n] columns left. *)
Fixpoint columns_loop (n : nat) (zoom : D) (img : Image) (minY maxY : Z)
    (x : Z) (c_real c_imag_start : D) : Image :=
  match n with
  | O => img
  | S n' =>
      let c_imag := c_imag_start in
      let img' := rows_loop (Z.to_nat (maxY - minY)) zoom img x minY c_real c_imag in
      columns_loop n' zoom img' minY maxY (x + 1) (c_real + zoom)%D c_imag_start
  end.

Definition c_real_start (zoom offset_X : D) : D :=
  (of_int 0 * zoom - of_int IMAGE_WIDTH / of_int 2 * zoom + offset_X)%D.

Definition c_imag_start (zoom offset_Y : D) (minY : Z) : D :=
  (of_int minY * zoom - of_int IMAGE_HEIGHT / of_int 2 * zoom + offset_Y)%D.

Definition UpdateImageSlice (zoom offset_X offset_Y : D) (img : Image)
    (minY maxY : Z) : Image :=
  columns_loop (Z.to_nat IMAGE_WIDTH) zoom img minY maxY 0
    (c_real_start zoom offset_X) (c_imag_start zoom offset_Y minY).

End Slice.

(** ** Dispatching the slices *)

(** The state of the loop [for (i = 0; i < H; i += STEP)]: the index and
    the threads pushed so far, each with the rows [minY, maxY) it renders. *)
Definition loop_state : Type := Z * list (Z * Z).

(** One turn of the loop; [None] when the test [i < H] fails. *)
Definition dispatch_step (H STEP : Z) (s : loop_state) : option loop_state :=
  let '(i, threads) := s in
  if i <? H then Some (i + STEP, threads ++ [(i, Z.min (i + STEP) H)])
  else None.

(** The state after [n] turns, as long as the loop has not ended. *)
Fixpoint dispatch_run (H STEP : Z) (n : nat) (s : loop_state) : option loop_state :=
  match n with
  | O => Some s
  | S n' =>
      match dispatch_step H STEP s with
      | Some s' => dispatch_run H STEP n' s'
      | None => None
      end
  end.

(** The whole loop; [None] when [fuel] turns were not enough. *)
Fixpoint dispatch_loop (H STEP : Z) (fuel : nat) (s : loop_state)
    : option (list (Z * Z)) :=
  match fuel with
  | O => None
  | S fuel' =>
      match dispatch_step H STEP s with
      | Some s' => dispatch_loop H STEP fuel' s'
      | None => Some (snd s)
      end
  end.

(** What a call of [UpdateImage] comes to. *)
Inductive outcome : Type :=
  | Returned (img : Image)
  | DivisionByZero
  | OutOfFuel.

Section Update.
Context {D : Type} `{DoubleOps D}.
Variable this : Mandelbrot.

(** The joined threads: every slice has run.  The threads write disjoint
    rows, so the order in which they run does not matter
    ([run_threads_order]); they are run here in the order they were
    started. *)
Definition run_threads (zoom offset_X offset_Y : D) (threads : list (Z * Z))
    (img : Image) : Image :=
  fold_left (fun im t => UpdateImageSlice this zoom offset_X offset_Y im (fst t) (snd t))
    threads img.

(** [hardware_concurrency] is the value [std::thread::hardware_concurrency()]
    returns, an [unsigned]. *)
Definition UpdateImage (fuel : nat) (hardware_concurrency : Z)
    (zoom offset_X offset_Y : D) (img : Image) : outcome :=
  if hardware_concurrency =? 0 then DivisionByZero
  else
    let STEP := IMAGE_HEIGHT / hardware_concurrency in
    match dispatch_loop IMAGE_HEIGHT STEP fuel (0, []) with
    | Some threads => Returned (run_threads zoom offset_X offset_Y threads img)
    | None => OutOfFuel
    end.

End Update.

(** ** Definitions used to state the properties *)

Section KernelDefs.
Context {D : Type} `{DoubleOps D}.

(** The escape test of a point [z]: [z_real^2 + z_imag^2 > 4.0]. *)
Definition escaped (z : D * D) : bool :=
  dgt (fst z * fst z + snd z * snd z)%D (of_int 4).

(** One step of the specification: [z_imag = 2*z_real*z_imag + c_imag],
    [z_real = r2 - i2 + c_real], both from the old [z]. *)
Definition orbit_step (c z : D * D) : D * D :=
  ((fst z * fst z - snd z * snd z + fst c)%D,
   (of_int 2 * fst z * snd z + snd c)%D).

(** The point reached from [z] after [k] steps. *)
Fixpoint orbit_from (c z : D * D) (k : nat) : D * D :=
  match k with
  | O => z
  | S k' => orbit_from c (orbit_step c z) k'
  end.

(** The orbit of the specification starts at [z = c]. *)
Definition orbit (c : D * D) (k : nat) : D * D := orbit_from c c k.

End KernelDefs.

Definition in_frame (x y : Z) : Prop :=
  0 <= x < IMAGE_WIDTH /\ 0 <= y < IMAGE_HEIGHT.

Section CoordinateDefs.
Context {D : Type} `{DoubleOps D}.

(** [c] after [k] turns of a loop that ends with [c += zoom]. *)
Fixpoint accumulate (zoom c : D) (k : nat) : D :=
  match k with
  | O => c
  | S k' => accumulate zoom (c + zoom)%D k'
  end.

(** The real part the loop holds when it reaches column [x]. *)
Definition c_real_at (zoom offset_X : D) (x : Z) : D :=
  accumulate zoom (c_real_start zoom offset_X) (Z.to_nat x).

(** The imaginary part the loop holds when it reaches row [y] of the
    slice that starts at row [minY]. *)
Definition c_imag_at (zoom offset_Y : D) (minY y : Z) : D :=
  accumulate zoom (c_imag_start zoom offset_Y minY) (Z.to_nat (y - minY)).

(** The same coordinates by the formulas of the specification,
    [(x - Width/2) * zoom + offset_x] and [(y - Height/2) * zoom + offset_y]. *)
Definition transform_real (zoom offset_X : D) (x : Z) : D :=
  ((of_int x - of_int IMAGE_WIDTH / of_int 2) * zoom + offset_X)%D.

Definition transform_imag (zoom offset_Y : D) (y : Z) : D :=
  ((of_int y - of_int IMAGE_HEIGHT / of_int 2) * zoom + offset_Y)%D.

(** The color the slice that starts at [minY] gives the pixel [(x, y)]. *)
Definition pixel_color (this : Mandelbrot) (zoom offset_X offset_Y : D)
    (minY x y : Z) : Color :=
  color_at this
    (ComputeMandelbrot (c_real_at zoom offset_X x) (c_imag_at zoom offset_Y minY y)).

End CoordinateDefs.

(** The row [y] is one of the rows of the slice [t]. *)
Definition covers (t : Z * Z) (y : Z) : Prop := fst t <= y < snd t.

(** The [n] slices pushed from index [i] on, written out. *)
Fixpoint slices_from (H STEP : Z) (n : nat) (i : Z) : list (Z * Z) :=
  match n with
  | O => []
  | S n' => (i, Z.min (i + STEP) H) :: slices_from H STEP n' (i + STEP)
  end.

(** The number of turns left at index [i]: [ceil ((H - i) / STEP)]. *)
Definition turns_left (H STEP i : Z) : nat :=
  Z.to_nat ((H - i + STEP - 1) / STEP).

Definition slice_count (H STEP : Z) : nat := turns_left H STEP 0.

Definition slices (H STEP : Z) : list (Z * Z) :=
  slices_from H STEP (slice_count H STEP) 0.

(** Slices inside the image. *)
Definition slice_ok (t : Z * Z) : Prop :=
  0 <= fst t <= snd t /\ snd t <= IMAGE_HEIGHT.

(** The slices start where a single slice would have arrived: the start
    value of every slice of the partition is the value accumulated from
    row 0. *)
Definition starts_agree {D : Type} `{DoubleOps D} (zoom offset_Y : D) (STEP : Z) : Prop :=
  Forall (fun t : Z * Z =>
            c_imag_start zoom offset_Y (fst t) =
            accumulate zoom (c_imag_start zoom offset_Y 0) (Z.to_nat (fst t)))
         (slices IMAGE_HEIGHT STEP).

(** The channels by the polynomials of the specification, in exact
    rational arithmetic: with [t = i / MaxIterations],
    [floor (9 (1-t) t^3 255)], [floor (15 (1-t)^2 t^2 255)] and
    [floor (8.5 (1-t)^3 t 255)]. *)
Definition spec_channels (i : Z) : Z * Z * Z :=
  let t : Q := Qmake i (Z.to_pos kMaxIterations) in
  (Qfloor (9 * (1 - t) * t ^ 3 * 255)%Q,
   Qfloor (15 * (1 - t) ^ 2 * t ^ 2 * 255)%Q,
   Qfloor (Qmake 17 2 * (1 - t) ^ 3 * t * 255)%Q).

(** The comparison of [GetColor] with the specification at one index, as
    a test that can be run. *)
Definition channels_agree (n : nat) : bool :=
  match GetColor_channels (Z.of_nat n), spec_channels (Z.of_nat n) with
  | Some (r, g, b), (r', g', b') =>
      (r =? r') && (g =? g') && (b =? b') &&
      (0 <=? r) && (r <=? 255) && (0 <=? g) && (g <=? 255) &&
      (0 <=? b) && (b <=? 255)
  | None, _ => false
  end.

(** ** The objects of [main] *)

(** [Mandelbrot mb;] *)
Definition mb : Mandelbrot :=
  mkMandelbrot (default [] (fill_colors (Z.to_nat (kMaxIterations + 1)) 0)).

(** The first viewport: [zoom = 0.004], [offset_X = -0.7], [offset_Y = 0.0];
    the literals denote the nearest doubles, [0x1.0624dd2f1a9fcp-8] and
    [-0x1.6666666666666p-1]. *)
Set Warnings "-inexact-float".
Definition zoom0 : float := 0.004%float.
Definition offset_X0 : float := (-0.7)%float.
Definition offset_Y0 : float := 0%float.

(** [image.create(IMAGE_WIDTH, IMAGE_HEIGHT, sf::Color(0, 0, 0))] *)
Definition image0 : Image :=
  mkImage IMAGE_WIDTH IMAGE_HEIGHT
    (replicate (Z.to_nat (IMAGE_WIDTH * IMAGE_HEIGHT)) (sfColor 0 0 0)).

(** ** The interaction loop of [main] *)

(** The test [a == b] on doubles, which the event handler needs besides
    the operations of the engine. *)
Class DoubleEq (D : Type) : Type := {
  deq : D -> D -> bool
}.

#[export] Instance binary64_eq : DoubleEq float := {
  deq := PrimFloat.eqb
}.

#[export] Instance exact_reals_eq : DoubleEq R := {
  deq := fun a b => if Req_dec_T a b then true else false
}.

(** The values of [sf::Event::type] that [main] tells apart. *)
Inductive EventType : Type :=
  | Closed
  | KeyPressed
  | MouseWheelScrolled
  | OtherEvent.

(** The values of [sf::Keyboard::Key] that [main] tells apart. *)
Inductive Key : Type :=
  | Key_Escape
  | Key_Equal
  | Key_Dash
  | Key_W
  | Key_S
  | Key_A
  | Key_D
  | Key_other.

(** [sf::Event] is a union: [event.key.code] and
    [event.mouseWheelScroll.delta] can be read whatever [event.type] is,
    and [main] does read the delta of a key event.  An event is therefore
    its type together with what the two members read as; nothing is
    assumed of the member that does not belong to the type.  The delta is
    a [float]; every [float] is a [double], and it is kept as one. *)
Record Event (D : Type) : Type := mkEvent {
  event_type : EventType;
  key_code : Key;
  wheel_delta : D
}.
Arguments mkEvent {D} _ _ _.
Arguments event_type {D} _.
Arguments key_code {D} _.
Arguments wheel_delta {D} _.

(** The locals of [main] the events act on: [zoom], [offset_X],
    [offset_Y], [zoom_factor], [stateChanged] and whether the window is
    open. *)
Record Viewer (D : Type) : Type := mkViewer {
  vzoom : D;
  voffset_X : D;
  voffset_Y : D;
  vzoom_factor : D;
  stateChanged : bool;
  isOpen : bool
}.
Arguments mkViewer {D} _ _ _ _ _ _.
Arguments vzoom {D} _.
Arguments voffset_X {D} _.
Arguments voffset_Y {D} _.
Arguments vzoom_factor {D} _.
Arguments stateChanged {D} _.
Arguments isOpen {D} _.

Section Events.
Context {D : Type} `{DoubleOps D} `{DoubleEq D}.

Definition set_zoom (z : D) (s : Viewer D) : Viewer D :=
  mkViewer z (voffset_X s) (voffset_Y s) (vzoom_factor s) (stateChanged s) (isOpen s).

Definition set_offset_X (x : D) (s : Viewer D) : Viewer D :=
  mkViewer (vzoom s) x (voffset_Y s) (vzoom_factor s) (stateChanged s) (isOpen s).

Definition set_offset_Y (y : D) (s : Viewer D) : Viewer D :=
  mkViewer (vzoom s) (voffset_X s) y (vzoom_factor s) (stateChanged s) (isOpen s).

Definition set_stateChanged (b : bool) (s : Viewer D) : Viewer D :=
  mkViewer (vzoom s) (voffset_X s) (voffset_Y s) (vzoom_factor s) b (isOpen s).

(** [window.close()] *)
Definition close (s : Viewer D) : Viewer D :=
  mkViewer (vzoom s) (voffset_X s) (voffset_Y s) (vzoom_factor s) (stateChanged s) false.

(** The body of [case sf::Event::MouseWheelScrolled]: two tests of the
    delta against 1 and -1, one after the other. *)
Definition wheel_scrolled (e : Event D) (s : Viewer D) : Viewer D :=
  let s1 :=
    if deq (wheel_delta e) (of_int 1)
    then set_zoom (vzoom s * vzoom_factor s)%D (set_stateChanged true s)
    else s in
  if deq (wheel_delta e) (of_int (-1))
  then set_zoom (vzoom s1 / vzoom_factor s1)%D (set_stateChanged true s1)
  else s1.

(** The body of [case sf::Event::KeyPressed] down to the end of its inner
    [switch]. *)
Definition key_pressed (e : Event D) (s : Viewer D) : Viewer D :=
  let s := set_stateChanged true s in
  match key_code e with
  | Key_Escape => close s
  | Key_Equal => set_zoom (vzoom s * vzoom_factor s)%D s
  | Key_Dash => set_zoom (vzoom s / vzoom_factor s)%D s
  | Key_W => set_offset_Y (voffset_Y s - of_int 40 * vzoom s)%D s
  | Key_S => set_offset_Y (voffset_Y s + of_int 40 * vzoom s)%D s
  | Key_A => set_offset_X (voffset_X s - of_int 40 * vzoom s)%D s
  | Key_D => set_offset_X (voffset_X s + of_int 40 * vzoom s)%D s
  | Key_other => set_stateChanged false s
  end.

(** The [switch (event.type)].  The case of a key press has no [break]
    after its inner [switch] and falls through into the case of the mouse
    wheel. *)
Definition handle_event (e : Event D) (s : Viewer D) : Viewer D :=
  match event_type e with
  | Closed => close s
  | KeyPressed => wheel_scrolled e (key_pressed e s)
  | MouseWheelScrolled => wheel_scrolled e s
  | OtherEvent => s
  end.

(** The loop [while (window.pollEvent(event))] over the events that are
    pending.  [pollEvent] gives no event once the window is closed, so the
    events after a close stay unread. *)
Fixpoint poll_events (events : list (Event D)) (s : Viewer D) : Viewer D :=
  match events with
  | [] => s
  | e :: events' =>
      if isOpen s then poll_events events' (handle_event e s) else s
  end.

(** What [main] holds between two turns of its outer loop: the locals, the
    image, and the texture of the sprite that is drawn ([None] before the
    first [loadFromImage]). *)
Definition main_state : Type := Viewer D * Image * option Image.

(** One turn of [while (window.isOpen())] with the events pending in it:
    the events are handled, and when [stateChanged] is set the image is
    computed again and loaded into the texture.  [None] when [UpdateImage]
    does not return. *)
Definition frame_step (this : Mandelbrot) (fuel : nat) (hardware_concurrency : Z)
    (events : list (Event D)) (st : main_state) : option main_state :=
  let '(s, image, texture) := st in
  let s := poll_events events s in
  if stateChanged s then
    match UpdateImage this fuel hardware_concurrency
            (vzoom s) (voffset_X s) (voffset_Y s) image with
    | Returned image' => Some (set_stateChanged false s, image', Some image')
    | _ => None
    end
  else Some (s, image, texture).

(** The outer loop, over the batches of events of its turns; it ends when
    the window is closed (or, here, when the batches are used up). *)
Fixpoint main_loop (this : Mandelbrot) (fuel : nat) (hardware_concurrency : Z)
    (batches : list (list (Event D))) (st : main_state) : option main_state :=
  match batches with
  | [] => Some st
  | events :: batches' =>
      if isOpen (fst (fst st)) then
        match frame_step this fuel hardware_concurrency events st with
        | Some st' => main_loop this fuel hardware_concurrency batches' st'
        | None => None
        end
      else Some st
  end.

(** The key presses of a batch are all of keys [main] has a case for. *)
Definition handled_keys (events : list (Event D)) : Prop :=
  Forall (fun e => event_type e = KeyPressed -> key_code e <> Key_other) events.

(** The frame of a viewport: what [UpdateImage] makes of any surface. *)
Definition frame_of (this : Mandelbrot) (hardware_concurrency : Z) (s : Viewer D)
    : Image :=
  run_threads this (vzoom s) (voffset_X s) (voffset_Y s)
    (slices IMAGE_HEIGHT (IMAGE_HEIGHT / hardware_concurrency)) image0.

(** Two states of the locals show the same part of the plane. *)
Definition same_view (s s' : Viewer D) : Prop :=
  vzoom s' = vzoom s /\ voffset_X s' = voffset_X s /\ voffset_Y s' = voffset_Y s.

(** What is drawn is the frame of the viewport: no redraw is pending, the
    image is the frame of the current [zoom], [offset_X] and [offset_Y],
    and the texture of the sprite is that image. *)
Definition in_sync (this : Mandelbrot) (hardware_concurrency : Z) (st : main_state)
    : Prop :=
  let '(s, image, texture) := st in
  surface image /\ stateChanged s = false /\
  image = frame_of this hardware_concurrency s /\ texture = Some image.

(** The delta of an event is neither 1 nor -1: both tests of the mouse
    wheel case fail. *)
Definition no_wheel_step (e : Event D) : Prop :=
  deq (wheel_delta e) (of_int 1) = false /\
  deq (wheel_delta e) (of_int (-1)) = false.

End Events.



(** An event that closes the window: the close button, or the key
    Escape. *)
Definition closing {D : Type} (e : Event D) : Prop :=
  event_type e = Closed \/ (event_type e = KeyPressed /\ key_code e = Key_Escape).


(** The locals of [main] before its loop; [zoom_factor = 0.9] is the
    double [0x1.ccccccccccccdp-1]. *)
Definition main_viewer : Viewer float :=
  mkViewer zoom0 offset_X0 offset_Y0 0.9%float true true.

Definition main_start : Viewer float * Image * option Image :=
  (main_viewer, image0, None).

(** * Properties *)

(** ** The kernel against the orbit of the specification *)

Section KernelSpec.
Context {D : Type} `{DoubleOps D}.

Lemma ComputeMandelbrot_loop_spec (c : D * D) (n : nat) :
  forall (counter : Z) (z : D * D),
    let r := ComputeMandelbrot_loop n counter (fst c) (snd c) (fst z) (snd z) in
    (exists j : nat, (j < n)%nat /\ r = counter + Z.of_nat j /\
        escaped (orbit_from c z j) = true /\
        forall i : nat, (i < j)%nat -> escaped (orbit_from c z i) = false)
    \/ (r = kMaxIterations /\
        forall i : nat, (i < n)%nat -> escaped (orbit_from c z i) = false).
Proof.
  induction n as [|n IH]; intros counter z; cbn zeta.
  - right. split; [reflexivity | intros i Hi; lia].
  - cbn [ComputeMandelbrot_loop].
    destruct (dgt (fst z * fst z + snd z * snd z)%D (of_int 4)) eqn:E.
    + left. exists 0%nat.
      split; [lia|]. split; [lia|]. split; [exact E|].
      intros i Hi; lia.
    + specialize (IH (counter + 1) (orbit_step c z)). cbn zeta in IH.
      cbn [orbit_step fst snd] in IH.
      destruct IH as [(j & Hj & Hr & He & Hb) | (Hr & Hb)].
      * left. exists (S j).
        split; [lia|]. split; [rewrite Hr; lia|]. split; [exact He|].
        intros [|i] Hi; [exact E | apply Hb; lia].
      * right. split; [exact Hr|].
        intros [|i] Hi; [exact E | apply Hb; lia].
Qed.

Lemma ComputeMandelbrot_range (c_real c_imag : D) :
  0 <= ComputeMandelbrot c_real c_imag <= kMaxIterations.
Proof.
  unfold ComputeMandelbrot.
  destruct (ComputeMandelbrot_loop_spec (c_real, c_imag)
              (Z.to_nat kMaxIterations) 0 (c_real, c_imag))
    as [(j & Hj & Hr & _) | (Hr & _)]; cbn [fst snd] in Hr; rewrite Hr.
  - unfold kMaxIterations in *. lia.
  - unfold kMaxIterations. lia.
Qed.

Lemma ComputeMandelbrot_first_escape (c_real c_imag : D) :
  let n := ComputeMandelbrot c_real c_imag in
  (forall k : Z, 0 <= k < n ->
      escaped (orbit (c_real, c_imag) (Z.to_nat k)) = false) /\
  (n < kMaxIterations -> escaped (orbit (c_real, c_imag) (Z.to_nat n)) = true).
Proof.
  cbn zeta. unfold ComputeMandelbrot, orbit.
  destruct (ComputeMandelbrot_loop_spec (c_real, c_imag)
              (Z.to_nat kMaxIterations) 0 (c_real, c_imag))
    as [(j & Hj & Hr & He & Hb) | (Hr & Hb)]; cbn [fst snd] in Hr; rewrite Hr.
  - split.
    + intros k Hk. apply Hb. lia.
    + intros _. replace (Z.to_nat (0 + Z.of_nat j)) with j by lia. exact He.
  - split.
    + intros k Hk. apply Hb. lia.
    + intros Hlt. lia.
Qed.

End KernelSpec.

(** ** Pixels of a surface *)

Lemma surface_setPixel (img : Image) (x y : Z) (c : Color) :
  surface img -> surface (setPixel img x y c).
Proof.
  intros (Hx & Hy & Hl). unfold surface; cbn.
  rewrite length_insert. auto.
Qed.

Lemma pixel_index_lt (img : Image) (x y : Z) :
  surface img -> in_frame x y ->
  (pixel_index img x y < length (pixels img))%nat.
Proof.
  intros (Hx & _ & Hl) (Hx' & Hy'). unfold pixel_index.
  rewrite Hx, Hl. unfold IMAGE_WIDTH, IMAGE_HEIGHT in *. lia.
Qed.

Lemma pixel_index_inj (img : Image) (x y x' y' : Z) :
  surface img -> in_frame x y -> in_frame x' y' ->
  pixel_index img x y = pixel_index img x' y' -> x = x' /\ y = y'.
Proof.
  intros (Hx & _ & _) (Hx1 & Hy1) (Hx2 & Hy2). unfold pixel_index.
  rewrite Hx. unfold IMAGE_WIDTH, IMAGE_HEIGHT in *. lia.
Qed.

Lemma getPixel_setPixel_eq (img : Image) (x y : Z) (c : Color) :
  surface img -> in_frame x y -> getPixel (setPixel img x y c) x y = Some c.
Proof.
  intros Hs Hf. unfold getPixel, setPixel, pixel_index; cbn.
  apply list_lookup_insert_eq. apply (pixel_index_lt img x y Hs Hf).
Qed.

Lemma getPixel_setPixel_ne (img : Image) (x y x' y' : Z) (c : Color) :
  surface img -> in_frame x y -> in_frame x' y' -> ~ (x' = x /\ y' = y) ->
  getPixel (setPixel img x y c) x' y' = getPixel img x' y'.
Proof.
  intros Hs Hf Hf' Hne. unfold getPixel, setPixel; cbn.
  change (Z.to_nat (x' + y' * size_x img)) with (pixel_index img x' y').
  apply list_lookup_insert_ne. intros Heq.
  apply Hne. destruct (pixel_index_inj img x y x' y' Hs Hf Hf' Heq); auto.
Qed.

(** Two surfaces with the same pixels are the same image. *)
Lemma surface_ext (img1 img2 : Image) :
  surface img1 -> surface img2 ->
  (forall x y : Z, in_frame x y -> getPixel img1 x y = getPixel img2 x y) ->
  img1 = img2.
Proof.
  intros (Hx1 & Hy1 & Hl1) (Hx2 & Hy2 & Hl2) Hp.
  destruct img1 as [sx1 sy1 p1], img2 as [sx2 sy2 p2]; cbn in *. subst.
  f_equal. apply list_eq. intros i.
  destruct (decide (i < Z.to_nat (IMAGE_WIDTH * IMAGE_HEIGHT))%nat) as [Hi|Hi].
  - specialize (Hp (Z.of_nat i mod IMAGE_WIDTH) (Z.of_nat i / IMAGE_WIDTH)).
    unfold getPixel, pixel_index in Hp; cbn in Hp.
    replace (Z.to_nat (Z.of_nat i mod IMAGE_WIDTH
                       + Z.of_nat i / IMAGE_WIDTH * IMAGE_WIDTH)) with i in Hp.
    + apply Hp. unfold in_frame, IMAGE_WIDTH, IMAGE_HEIGHT in *.
      pose proof (Z.mod_pos_bound (Z.of_nat i) 960 ltac:(lia)).
      pose proof (Z.div_pos (Z.of_nat i) 960 ltac:(lia) ltac:(lia)).
      assert (Z.of_nat i / 960 < 540)
        by (apply Z.div_lt_upper_bound; lia).
      lia.
    + pose proof (Z.div_mod (Z.of_nat i) IMAGE_WIDTH ltac:(unfold IMAGE_WIDTH; lia)).
      lia.
  - rewrite !lookup_ge_None_2 by lia. reflexivity.
Qed.

(** ** The coordinates the slice loops reach *)

Section Coordinates.
Context {D : Type} `{DoubleOps D}.

Lemma accumulate_add (zoom c : D) (a k : nat) :
  accumulate zoom c (a + k) = accumulate zoom (accumulate zoom c a) k.
Proof.
  revert c. induction a as [|a IH]; intros c; cbn; [reflexivity | apply IH].
Qed.

Lemma accumulate_succ (zoom c : D) (k : nat) :
  accumulate zoom c (S k) = (accumulate zoom c k + zoom)%D.
Proof.
  replace (S k) with (k + 1)%nat by lia. rewrite accumulate_add. reflexivity.
Qed.

End Coordinates.

(** ** What a slice writes *)

Section SliceSpec.
Context {D : Type} `{DoubleOps D}.
Variable this : Mandelbrot.

Lemma rows_loop_surface (n : nat) (zoom : D) :
  forall (img : Image) (x y : Z) (c_real c_imag : D),
    surface img -> surface (rows_loop this n zoom img x y c_real c_imag).
Proof.
  induction n as [|n IH]; intros img x y c_real c_imag Hs; cbn; [exact Hs|].
  apply IH, surface_setPixel, Hs.
Qed.

(** The inner loop writes the rows [y, y + n) of column [x] and nothing
    else. *)
Lemma rows_loop_pixel (n : nat) (zoom : D) :
  forall (img : Image) (x y : Z) (c_real c_imag : D),
    surface img -> 0 <= x < IMAGE_WIDTH -> 0 <= y ->
    y + Z.of_nat n <= IMAGE_HEIGHT ->
    forall x' y' : Z, in_frame x' y' ->
      getPixel (rows_loop this n zoom img x y c_real c_imag) x' y' =
      if decide (x' = x /\ y <= y' < y + Z.of_nat n)
      then Some (color_at this
             (ComputeMandelbrot c_real (accumulate zoom c_imag (Z.to_nat (y' - y)))))
      else getPixel img x' y'.
Proof.
  induction n as [|n IH]; intros img x y c_real c_imag Hs Hx Hy Hn x' y' Hf.
  - cbn. case_decide; [lia | reflexivity].
  - cbn [rows_loop].
    rewrite (IH _ x (y + 1) c_real _ (surface_setPixel _ x y _ Hs) Hx
               ltac:(lia) ltac:(lia) x' y' Hf).
    destruct (decide (x' = x /\ y' = y)) as [[-> ->]|Hne].
    + rewrite getPixel_setPixel_eq; [| exact Hs | exact Hf].
      repeat case_decide; try lia.
      replace (Z.to_nat (y - y)) with 0%nat by lia. reflexivity.
    + rewrite getPixel_setPixel_ne;
        [| exact Hs | split; [lia | destruct Hf; lia] | exact Hf | exact Hne].
      repeat case_decide; try lia; [| reflexivity].
      replace (Z.to_nat (y' - y)) with (S (Z.to_nat (y' - (y + 1)))) by lia.
      reflexivity.
Qed.

Lemma columns_loop_surface (n : nat) (zoom : D) :
  forall (img : Image) (minY maxY x : Z) (c_real c_imag0 : D),
    surface img ->
    surface (columns_loop this n zoom img minY maxY x c_real c_imag0).
Proof.
  induction n as [|n IH]; intros img minY maxY x c_real c_imag0 Hs; cbn;
    [exact Hs|].
  apply IH, rows_loop_surface, Hs.
Qed.

(** The outer loop writes the rows [minY, maxY) of the columns
    [x, x + n) and nothing else. *)
Lemma columns_loop_pixel (n : nat) (zoom : D) :
  forall (img : Image) (minY maxY x : Z) (c_real c_imag0 : D),
    surface img -> 0 <= x -> x + Z.of_nat n <= IMAGE_WIDTH ->
    0 <= minY <= maxY -> maxY <= IMAGE_HEIGHT ->
    forall x' y' : Z, in_frame x' y' ->
      getPixel (columns_loop this n zoom img minY maxY x c_real c_imag0) x' y' =
      if decide ((x <= x' < x + Z.of_nat n) /\ minY <= y' < maxY)
      then Some (color_at this
             (ComputeMandelbrot (accumulate zoom c_real (Z.to_nat (x' - x)))
                                (accumulate zoom c_imag0 (Z.to_nat (y' - minY)))))
      else getPixel img x' y'.
Proof.
  induction n as [|n IH];
    intros img minY maxY x c_real c_imag0 Hs Hx Hn Hmin Hmax x' y' Hf.
  - cbn. case_decide; [lia | reflexivity].
  - cbn [columns_loop].
    rewrite (IH _ minY maxY (x + 1) _ c_imag0 (rows_loop_surface _ _ _ _ _ _ _ Hs)
               ltac:(lia) ltac:(lia) Hmin Hmax x' y' Hf).
    rewrite (rows_loop_pixel (Z.to_nat (maxY - minY)) zoom img x minY c_real c_imag0 Hs
               ltac:(lia) ltac:(lia) ltac:(lia) x' y' Hf).
    destruct (decide (x' = x)) as [->|Hne].
    + replace (Z.to_nat (x - x)) with 0%nat by lia. cbn [accumulate].
      repeat case_decide; first [lia | reflexivity].
    + repeat case_decide; try lia.
      * replace (Z.to_nat (x' - x)) with (S (Z.to_nat (x' - (x + 1)))) by lia.
        reflexivity.
      * reflexivity.
Qed.

Lemma UpdateImageSlice_surface (zoom offset_X offset_Y : D) (img : Image)
    (minY maxY : Z) :
  surface img ->
  surface (UpdateImageSlice this zoom offset_X offset_Y img minY maxY).
Proof. apply columns_loop_surface. Qed.

(** A slice gives every pixel of its rows the color of that pixel and
    leaves the other rows as they were. *)
Lemma UpdateImageSlice_pixel (zoom offset_X offset_Y : D) (img : Image)
    (minY maxY x y : Z) :
  surface img -> 0 <= minY <= maxY -> maxY <= IMAGE_HEIGHT -> in_frame x y ->
  getPixel (UpdateImageSlice this zoom offset_X offset_Y img minY maxY) x y =
  if decide (minY <= y < maxY)
  then Some (pixel_color this zoom offset_X offset_Y minY x y)
  else getPixel img x y.
Proof.
  intros Hs Hmin Hmax Hf. unfold UpdateImageSlice.
  rewrite (columns_loop_pixel (Z.to_nat IMAGE_WIDTH) zoom img minY maxY 0 _ _ Hs ltac:(lia)
             ltac:(unfold IMAGE_WIDTH; lia) Hmin Hmax x y Hf).
  destruct Hf as [Hx Hy].
  repeat case_decide; try lia; [| reflexivity].
  unfold pixel_color, c_real_at, c_imag_at.
  replace (x - 0) with x by lia. reflexivity.
Qed.

End SliceSpec.

(** ** The slices the dispatch loop creates *)

Lemma turns_left_done (H STEP i : Z) :
  1 <= STEP -> H <= i -> turns_left H STEP i = 0%nat.
Proof.
  intros HS Hi. unfold turns_left.
  assert ((H - i + STEP - 1) / STEP <= 0); [|lia].
  assert ((H - i + STEP - 1) / STEP < 1); [|lia].
  apply Z.div_lt_upper_bound; lia.
Qed.

Lemma turns_left_step (H STEP i : Z) :
  1 <= STEP -> i < H ->
  turns_left H STEP i = S (turns_left H STEP (i + STEP)).
Proof.
  intros HS Hi. unfold turns_left.
  replace (H - i + STEP - 1) with ((H - (i + STEP) + STEP - 1) + 1 * STEP) by lia.
  rewrite Z.div_add by lia.
  assert (0 <= (H - (i + STEP) + STEP - 1) / STEP)
    by (apply Z.div_pos; lia).
  lia.
Qed.

Lemma length_slices_from (H STEP : Z) (n : nat) (i : Z) :
  length (slices_from H STEP n i) = n.
Proof. revert i. induction n as [|n IH]; intros i; cbn; [|rewrite IH]; reflexivity. Qed.

Lemma slices_from_lookup (H STEP : Z) (n : nat) :
  forall (i : Z) (k : nat), (k < n)%nat ->
    slices_from H STEP n i !! k =
    Some (i + Z.of_nat k * STEP, Z.min (i + (Z.of_nat k + 1) * STEP) H).
Proof.
  induction n as [|n IH]; intros i k Hk; [lia|].
  destruct k as [|k]; cbn [slices_from].
  - cbn. do 2 f_equal; f_equal; lia.
  - change ((?a :: ?l) !! S k) with (l !! k).
    rewrite IH by lia. do 2 f_equal; [|f_equal]; lia.
Qed.

Lemma slices_lookup_inv (H STEP : Z) (k : nat) (t : Z * Z) :
  slices H STEP !! k = Some t ->
  (k < slice_count H STEP)%nat /\
  t = (Z.of_nat k * STEP, Z.min ((Z.of_nat k + 1) * STEP) H).
Proof.
  intros Hl. unfold slices in Hl.
  assert (Hk : (k < slice_count H STEP)%nat).
  { apply lookup_lt_Some in Hl. rewrite length_slices_from in Hl. exact Hl. }
  split; [exact Hk|].
  rewrite slices_from_lookup in Hl by exact Hk.
  injection Hl as <-. f_equal; f_equal; lia.
Qed.

(** With a step of at least one row the loop ends, and it has pushed the
    slices written out above. *)
Lemma dispatch_loop_slices (H STEP : Z) :
  1 <= STEP ->
  forall (n : nat) (i : Z) (threads : list (Z * Z)) (fuel : nat),
    n = turns_left H STEP i -> (n < fuel)%nat ->
    dispatch_loop H STEP fuel (i, threads) =
    Some (threads ++ slices_from H STEP n i).
Proof.
  intros HS. induction n as [|n IH]; intros i threads fuel Hn Hf.
  - destruct fuel as [|fuel]; [lia|]. cbn.
    destruct (Z.ltb_spec i H) as [Hi|Hi].
    + rewrite (turns_left_step H STEP i HS Hi) in Hn. discriminate.
    + rewrite app_nil_r. reflexivity.
  - destruct fuel as [|fuel]; [lia|]. cbn [dispatch_loop dispatch_step].
    destruct (Z.ltb_spec i H) as [Hi|Hi].
    + rewrite (turns_left_step H STEP i HS Hi) in Hn.
      rewrite (IH (i + STEP) _ fuel) by lia.
      cbn [slices_from]. rewrite <- app_assoc. reflexivity.
    + rewrite (turns_left_done H STEP i HS Hi) in Hn. discriminate.
Qed.

(** A step that does not advance the index never lets the loop end. *)
Lemma dispatch_loop_stuck (H STEP : Z) (fuel : nat) :
  STEP <= 0 ->
  forall (i : Z) (threads : list (Z * Z)),
    i < H -> dispatch_loop H STEP fuel (i, threads) = None.
Proof.
  intros HS. induction fuel as [|fuel IH]; intros i threads Hi; [reflexivity|].
  cbn [dispatch_loop dispatch_step].
  destruct (Z.ltb_spec i H) as [_|Hge]; [|lia].
  apply IH. lia.
Qed.


(** The loop ends exactly when the step is at least one row. *)
Lemma dispatch_loop_ends_iff (H STEP : Z) :
  0 < H ->
  (exists (fuel : nat) (threads : list (Z * Z)),
      dispatch_loop H STEP fuel (0, []) = Some threads) <-> 1 <= STEP.
Proof.
  intros HH. split.
  - intros (fuel & threads & Hd).
    destruct (Z.le_gt_cases 1 STEP) as [Hs|Hs]; [exact Hs|].
    rewrite dispatch_loop_stuck in Hd by lia. discriminate.
  - intros HS. exists (S (slice_count H STEP)), (slices H STEP).
    rewrite (dispatch_loop_slices H STEP HS (slice_count H STEP) 0 [])
      by first [reflexivity | lia].
    reflexivity.
Qed.

(** Whatever the fuel, a loop that ends has pushed [slices H STEP]. *)
Lemma dispatch_loop_result (H STEP : Z) (fuel : nat) (threads : list (Z * Z)) :
  0 < H -> dispatch_loop H STEP fuel (0, []) = Some threads ->
  1 <= STEP /\ threads = slices H STEP.
Proof.
  intros HH Hd.
  assert (HS : 1 <= STEP).
  { apply (dispatch_loop_ends_iff H STEP HH). eauto. }
  split; [exact HS|].
  destruct (decide (slice_count H STEP < fuel)%nat) as [Hf|Hf].
  - rewrite (dispatch_loop_slices H STEP HS (slice_count H STEP) 0 [] fuel) in Hd
      by first [reflexivity | exact Hf].
    injection Hd as <-. reflexivity.
  - exfalso. revert Hd Hf. unfold slice_count.
    generalize (@nil (Z * Z)) as acc. generalize 0 as i.
    induction fuel as [|fuel IH]; intros i acc Hd Hf; [discriminate|].
    cbn [dispatch_loop dispatch_step] in Hd.
    destruct (Z.ltb_spec i H) as [Hi|Hi].
    + apply (IH _ _ Hd). rewrite (turns_left_step H STEP i HS Hi) in Hf. lia.
    + rewrite (turns_left_done H STEP i HS Hi) in Hf. lia.
Qed.

(** *** The slices are a partition of the rows *)

Lemma slice_count_eq (H STEP : Z) :
  1 <= STEP -> 0 < H -> Z.of_nat (slice_count H STEP) = (H - 1) / STEP + 1.
Proof.
  intros HS HH. unfold slice_count, turns_left.
  replace (H - 0 + STEP - 1) with ((H - 1) + 1 * STEP) by lia.
  rewrite Z.div_add by lia.
  assert (0 <= (H - 1) / STEP) by (apply Z.div_pos; lia).
  lia.
Qed.

(** The slice of a row: the row divided by the step. *)
Lemma slices_row_index (H STEP y : Z) :
  1 <= STEP -> 0 <= y < H -> (Z.to_nat (y / STEP) < slice_count H STEP)%nat.
Proof.
  intros HS Hy.
  pose proof (slice_count_eq H STEP HS ltac:(lia)) as Hc.
  assert (0 <= y / STEP) by (apply Z.div_pos; lia).
  assert (y / STEP <= (H - 1) / STEP) by (apply Z.div_le_mono; lia).
  lia.
Qed.

Lemma slices_covers (H STEP y : Z) (k : nat) (t : Z * Z) :
  1 <= STEP -> 0 <= y < H -> slices H STEP !! k = Some t ->
  covers t y <-> k = Z.to_nat (y / STEP).
Proof.
  intros HS Hy Hl. apply slices_lookup_inv in Hl as [Hk ->].
  unfold covers; cbn [fst snd].
  pose proof (Z.mul_div_le y STEP ltac:(lia)).
  pose proof (Z.mul_succ_div_gt y STEP ltac:(lia)).
  assert (0 <= y / STEP) by (apply Z.div_pos; lia).
  split.
  - intros [Hlo Hhi].
    assert (y / STEP = Z.of_nat k); [|lia].
    symmetry. apply (Z.div_unique y STEP (Z.of_nat k) (y - Z.of_nat k * STEP)); lia.
  - intros ->. rewrite Z2Nat.id by lia. lia.
Qed.

Lemma slices_lookup_row (H STEP y : Z) :
  1 <= STEP -> 0 <= y < H ->
  slices H STEP !! Z.to_nat (y / STEP) =
  Some (y / STEP * STEP, Z.min ((y / STEP + 1) * STEP) H).
Proof.
  intros HS Hy. unfold slices.
  rewrite slices_from_lookup by (apply slices_row_index; assumption).
  assert (0 <= y / STEP) by (apply Z.div_pos; lia).
  rewrite Z2Nat.id by lia. do 2 f_equal.
Qed.

Lemma slices_valid (H STEP : Z) (k : nat) (t : Z * Z) :
  1 <= STEP -> 0 < H -> slices H STEP !! k = Some t ->
  0 <= fst t < snd t /\ snd t <= H.
Proof.
  intros HS HH Hl. apply slices_lookup_inv in Hl as [Hk ->]. cbn [fst snd].
  pose proof (slice_count_eq H STEP HS HH) as Hc.
  assert (Z.of_nat k <= (H - 1) / STEP) by lia.
  pose proof (Z.mul_div_le (H - 1) STEP ltac:(lia)).
  assert (Z.of_nat k * STEP <= (H - 1) / STEP * STEP) by nia.
  nia.
Qed.

Lemma slices_disjoint (H STEP : Z) (k k' : nat) (t t' : Z * Z) (y : Z) :
  1 <= STEP -> slices H STEP !! k = Some t -> slices H STEP !! k' = Some t' ->
  k <> k' -> covers t y -> ~ covers t' y.
Proof.
  intros HS Hl Hl' Hne Hc Hc'.
  apply slices_lookup_inv in Hl as [_ ->].
  apply slices_lookup_inv in Hl' as [_ ->].
  unfold covers in *; cbn [fst snd] in *.
  assert (Z.of_nat k < Z.of_nat k' \/ Z.of_nat k' < Z.of_nat k) as [Hlt|Hlt] by lia.
  - assert ((Z.of_nat k + 1) * STEP <= Z.of_nat k' * STEP) by nia. lia.
  - assert ((Z.of_nat k' + 1) * STEP <= Z.of_nat k * STEP) by nia. lia.
Qed.

(** ** The joined threads *)

Section Threads.
Context {D : Type} `{DoubleOps D}.
Variable this : Mandelbrot.
Variables zoom offset_X offset_Y : D.

Lemma run_threads_surface (threads : list (Z * Z)) :
  forall img : Image,
    surface img -> surface (run_threads this zoom offset_X offset_Y threads img).
Proof.
  induction threads as [|t threads IH]; intros img Hs; cbn; [exact Hs|].
  apply IH, UpdateImageSlice_surface, Hs.
Qed.

(** A row of no slice keeps its pixels. *)
Lemma run_threads_untouched (threads : list (Z * Z)) (x y : Z) :
  in_frame x y ->
  forall img : Image,
    surface img -> Forall slice_ok threads ->
    Forall (fun t => ~ covers t y) threads ->
    getPixel (run_threads this zoom offset_X offset_Y threads img) x y =
    getPixel img x y.
Proof.
  intros Hf. induction threads as [|t threads IH]; intros img Hs Hok Hnc; cbn;
    [reflexivity|].
  inversion Hok as [|? ? [Ht1 Ht2] Hok']; subst.
  inversion Hnc as [|? ? Hnt Hnc']; subst.
  fold (run_threads this zoom offset_X offset_Y threads
          (UpdateImageSlice this zoom offset_X offset_Y img (fst t) (snd t))).
  rewrite IH; [| apply UpdateImageSlice_surface, Hs | exact Hok' | exact Hnc'].
  rewrite UpdateImageSlice_pixel by assumption.
  unfold covers in Hnt. rewrite decide_False by exact Hnt. reflexivity.
Qed.

(** A row of exactly one slice holds what that slice wrote. *)
Lemma run_threads_pixel (threads : list (Z * Z)) (x y : Z) :
  in_frame x y ->
  forall (img : Image) (k : nat) (t : Z * Z),
    surface img -> Forall slice_ok threads ->
    threads !! k = Some t -> covers t y ->
    (forall (k' : nat) (t' : Z * Z),
        threads !! k' = Some t' -> k' <> k -> ~ covers t' y) ->
    getPixel (run_threads this zoom offset_X offset_Y threads img) x y =
    Some (pixel_color this zoom offset_X offset_Y (fst t) x y).
Proof.
  intros Hf. induction threads as [|t0 threads IH];
    intros img k t Hs Hok Hl Hc Hother; [discriminate|].
  inversion Hok as [|? ? [Ht1 Ht2] Hok']; subst.
  cbn [run_threads fold_left].
  fold (run_threads this zoom offset_X offset_Y threads
          (UpdateImageSlice this zoom offset_X offset_Y img (fst t0) (snd t0))).
  destruct k as [|k].
  - injection Hl as ->.
    rewrite run_threads_untouched;
      [| exact Hf | apply UpdateImageSlice_surface, Hs | exact Hok' |].
    + rewrite UpdateImageSlice_pixel by assumption.
      rewrite decide_True by exact Hc. reflexivity.
    + apply Forall_lookup_2. intros k' t' Hl'.
      apply (Hother (S k') t'); [exact Hl' | lia].
  - apply (IH _ k t); [apply UpdateImageSlice_surface, Hs | exact Hok' | exact Hl
                      | exact Hc |].
    intros k' t' Hl' Hne. apply (Hother (S k') t'); [exact Hl' | lia].
Qed.

End Threads.

(** ** The frame update *)

Lemma step_positive_iff (hardware_concurrency : Z) :
  0 <= hardware_concurrency ->
  1 <= IMAGE_HEIGHT / hardware_concurrency <->
  1 <= hardware_concurrency <= IMAGE_HEIGHT.
Proof.
  intros Hh. unfold IMAGE_HEIGHT. split.
  - intros HS.
    destruct (Z.eq_dec hardware_concurrency 0) as [->|Hne];
      [rewrite Z.div_0_r in HS; lia|].
    split; [lia|].
    destruct (Z.le_gt_cases hardware_concurrency 540) as [Hle|Hgt]; [exact Hle|].
    rewrite Z.div_small in HS by lia. lia.
  - intros [Hlo Hhi]. apply Z.div_le_lower_bound; lia.
Qed.

Section UpdateSpec.
Context {D : Type} `{DoubleOps D}.
Variable this : Mandelbrot.
Variables zoom offset_X offset_Y : D.

(** A call that returns has run the slices of the partition. *)
Lemma UpdateImage_returned (fuel : nat) (hc : Z) (img img' : Image) :
  UpdateImage this fuel hc zoom offset_X offset_Y img = Returned img' ->
  hc <> 0 /\ 1 <= IMAGE_HEIGHT / hc /\
  img' = run_threads this zoom offset_X offset_Y
           (slices IMAGE_HEIGHT (IMAGE_HEIGHT / hc)) img.
Proof.
  unfold UpdateImage. destruct (Z.eqb_spec hc 0) as [|Hne]; [discriminate|].
  destruct (dispatch_loop IMAGE_HEIGHT (IMAGE_HEIGHT / hc) fuel (0, []))
    as [threads|] eqn:Hd; [|discriminate].
  intros [= <-].
  apply dispatch_loop_result in Hd as [HS ->]; [|unfold IMAGE_HEIGHT; lia].
  auto.
Qed.

(** With a positive step and enough fuel the call returns. *)
Lemma UpdateImage_enough_fuel (fuel : nat) (hc : Z) (img : Image) :
  1 <= hc <= IMAGE_HEIGHT -> (Z.to_nat IMAGE_HEIGHT < fuel)%nat ->
  UpdateImage this fuel hc zoom offset_X offset_Y img =
  Returned (run_threads this zoom offset_X offset_Y
              (slices IMAGE_HEIGHT (IMAGE_HEIGHT / hc)) img).
Proof.
  intros Hhc Hfuel. unfold UpdateImage.
  destruct (Z.eqb_spec hc 0) as [|_]; [lia|].
  assert (HS : 1 <= IMAGE_HEIGHT / hc) by (apply step_positive_iff; lia).
  rewrite (dispatch_loop_slices IMAGE_HEIGHT _ HS
             (slice_count IMAGE_HEIGHT (IMAGE_HEIGHT / hc)) 0 []);
    [reflexivity | reflexivity |].
  pose proof (slice_count_eq IMAGE_HEIGHT _ HS ltac:(unfold IMAGE_HEIGHT; lia)) as Hc.
  assert ((IMAGE_HEIGHT - 1) / (IMAGE_HEIGHT / hc) <= IMAGE_HEIGHT - 1).
  { apply Z.div_le_upper_bound; [lia|]. unfold IMAGE_HEIGHT in *. nia. }
  lia.
Qed.

Lemma slices_all_ok (STEP : Z) :
  1 <= STEP -> Forall slice_ok (slices IMAGE_HEIGHT STEP).
Proof.
  intros HS. apply Forall_lookup_2. intros k t Hl.
  apply slices_valid in Hl; [| exact HS | unfold IMAGE_HEIGHT; lia].
  unfold slice_ok. lia.
Qed.

(** The pixels of the partitioned frame: the slice of row [y] starts at
    row [y / STEP * STEP]. *)
Lemma slices_frame_pixel (STEP : Z) (img : Image) (x y : Z) :
  1 <= STEP -> surface img -> in_frame x y ->
  getPixel (run_threads this zoom offset_X offset_Y (slices IMAGE_HEIGHT STEP) img)
    x y =
  Some (pixel_color this zoom offset_X offset_Y (y / STEP * STEP) x y).
Proof.
  intros HS Hs Hf.
  pose proof (slices_lookup_row IMAGE_HEIGHT STEP y HS (proj2 Hf)) as Hl.
  rewrite (run_threads_pixel this zoom offset_X offset_Y _ x y Hf img _ _ Hs
             (slices_all_ok STEP HS) Hl).
  - reflexivity.
  - apply (slices_covers IMAGE_HEIGHT STEP y _ _ HS (proj2 Hf) Hl). reflexivity.
  - intros k' t' Hl' Hne Hc.
    apply (slices_covers IMAGE_HEIGHT STEP y _ _ HS (proj2 Hf) Hl') in Hc.
    contradiction.
Qed.

Lemma UpdateImage_pixel (fuel : nat) (hc : Z) (img img' : Image) (x y : Z) :
  surface img ->
  UpdateImage this fuel hc zoom offset_X offset_Y img = Returned img' ->
  in_frame x y ->
  getPixel img' x y =
  Some (pixel_color this zoom offset_X offset_Y
          (y / (IMAGE_HEIGHT / hc) * (IMAGE_HEIGHT / hc)) x y).
Proof.
  intros Hs Hr Hf. apply UpdateImage_returned in Hr as (_ & HS & ->).
  apply slices_frame_pixel; assumption.
Qed.

Lemma UpdateImage_surface (fuel : nat) (hc : Z) (img img' : Image) :
  surface img ->
  UpdateImage this fuel hc zoom offset_X offset_Y img = Returned img' ->
  surface img'.
Proof.
  intros Hs Hr. apply UpdateImage_returned in Hr as (_ & _ & ->).
  apply run_threads_surface, Hs.
Qed.

End UpdateSpec.

(** ** The palette *)

Lemma fill_colors_lookup (n : nat) :
  forall (i : Z) (cs : list Color),
    fill_colors n i = Some cs ->
    length cs = n /\
    forall k : nat, (k < n)%nat -> cs !! k = GetColor (i + Z.of_nat k).
Proof.
  induction n as [|n IH]; intros i cs Hfill; cbn in Hfill.
  - injection Hfill as <-. split; [reflexivity | intros k Hk; lia].
  - destruct (GetColor i) as [c|] eqn:Hc; [|discriminate].
    destruct (fill_colors n (i + 1)) as [cs'|] eqn:Hcs; [|discriminate].
    injection Hfill as <-. destruct (IH _ _ Hcs) as [Hlen Hk].
    split; [cbn; lia|].
    intros [|k] Hlt.
    + cbn. rewrite Z.add_0_r, Hc. reflexivity.
    + change ((c :: cs') !! S k) with (cs' !! k).
      rewrite Hk by lia. f_equal. lia.
Qed.

Lemma Mandelbrot_new_colors (this : Mandelbrot) :
  Mandelbrot_new = Some this ->
  length (colors this) = Z.to_nat (kMaxIterations + 1) /\
  forall i : Z, 0 <= i <= kMaxIterations ->
    colors this !! Z.to_nat i = GetColor i.
Proof.
  unfold Mandelbrot_new.
  destruct (fill_colors (Z.to_nat (kMaxIterations + 1)) 0) as [cs|] eqn:Hfill;
    [|discriminate].
  intros [= <-]. cbn [colors].
  destruct (fill_colors_lookup _ _ _ Hfill) as [Hlen Hk].
  split; [exact Hlen|].
  intros i Hi. specialize (Hk (Z.to_nat i) ltac:(unfold kMaxIterations in *; lia)).
  rewrite Hk. f_equal. lia.
Qed.

(** ** The arithmetic of [int] stays in range *)

(** After [n] turns the index is [n * STEP]; it was below [H] before the
    last turn, so with [H = IMAGE_HEIGHT] neither [i + STEP] nor
    [i += STEP] exceeds [2 * 540]. *)
Lemma dispatch_run_index (H STEP : Z) (n : nat) :
  0 <= STEP ->
  forall (i0 : Z) (threads0 : list (Z * Z)) (i : Z) (threads : list (Z * Z)),
    dispatch_run H STEP n (i0, threads0) = Some (i, threads) ->
    i = i0 + Z.of_nat n * STEP /\ (n = 0%nat \/ i < H + STEP).
Proof.
  intros HS. induction n as [|n IH]; intros i0 threads0 i threads Hr.
  - cbn in Hr. injection Hr as <- <-. split; [lia | left; reflexivity].
  - cbn [dispatch_run dispatch_step] in Hr.
    destruct (Z.ltb_spec i0 H) as [Hi|Hi]; [|discriminate].
    apply IH in Hr as [-> Hb]. split; [lia|]. right.
    destruct Hb as [->|Hb]; [cbn; lia | lia].
Qed.

(** * The claims *)

(** ** The kernel on binary64 *)

(** C2.  For every pair of doubles [(c_real, c_imag)] the kernel returns
    (it is a total function) an integer in [[0, kMaxIterations]].  The
    value is the index of the first point of the orbit, started at
    [z = c] and advanced by [z_imag = 2*z_real*z_imag + c_imag],
    [z_real = r2 - i2 + c_real], whose squared magnitude exceeds [4.0]:
    no earlier point escapes, and when the value is below
    [kMaxIterations] the point of that index does; it is
    [kMaxIterations] when none of the first [kMaxIterations] points
    escapes. *)
Theorem ComputeMandelbrot_total (c_real c_imag : float) :
  let n := ComputeMandelbrot c_real c_imag in
  0 <= n <= kMaxIterations /\
  (forall k : Z, 0 <= k < n ->
      escaped (orbit (c_real, c_imag) (Z.to_nat k)) = false) /\
  (n < kMaxIterations -> escaped (orbit (c_real, c_imag) (Z.to_nat n)) = true) /\
  ((forall k : Z, 0 <= k < kMaxIterations ->
      escaped (orbit (c_real, c_imag) (Z.to_nat k)) = false) ->
   n = kMaxIterations).
Proof.
  cbn zeta.
  pose proof (ComputeMandelbrot_range c_real c_imag) as Hrange.
  destruct (ComputeMandelbrot_first_escape c_real c_imag) as [Hbefore Hat].
  split; [exact Hrange|]. split; [exact Hbefore|]. split; [exact Hat|].
  intros Hnone.
  destruct (Z.eq_dec (ComputeMandelbrot c_real c_imag) kMaxIterations) as [He|Hne];
    [exact He|].
  assert (Hlt : ComputeMandelbrot c_real c_imag < kMaxIterations) by lia.
  specialize (Hat Hlt). rewrite Hnone in Hat by lia. discriminate.
Qed.

(** C9.  At [c = (0, 0)] the kernel returns [kMaxIterations]; at
    [c = (2, 0)] it returns 0 or 1 (it returns 1: the start point has
    squared magnitude exactly 4.0, which is not above 4.0, and the next
    point is 6). *)
Theorem ComputeMandelbrot_known_points :
  ComputeMandelbrot (of_int 0 : float) (of_int 0) = kMaxIterations /\
  (ComputeMandelbrot (of_int 2 : float) (of_int 0) = 0 \/
   ComputeMandelbrot (of_int 2 : float) (of_int 0) = 1) /\
  ComputeMandelbrot (of_int 2 : float) (of_int 0) = 1.
Proof.
  split; [vm_compute; reflexivity|].
  split; [right|]; vm_compute; reflexivity.
Qed.

(** ** The dispatch loop *)

(** C3.  With a hardware concurrency of zero the frame update divides by
    zero: whatever the viewport, the surface and the fuel, it starts no
    slice and returns no frame.  (The claim asks for a fall back to one
    slice; the code has none.) *)
Theorem UpdateImage_zero_concurrency (fuel : nat) (zoom offset_X offset_Y : float)
    (img : Image) :
  UpdateImage mb fuel 0 zoom offset_X offset_Y img = DivisionByZero /\
  forall img' : Image,
    UpdateImage mb fuel 0 zoom offset_X offset_Y img <> Returned img'.
Proof.
  assert (Hdiv : UpdateImage mb fuel 0 zoom offset_X offset_Y img = DivisionByZero)
    by reflexivity.
  split; [exact Hdiv|].
  intros img' Hret. rewrite Hdiv in Hret. discriminate Hret.
Qed.



(** C5.  For every height [H >= 1] and worker count [1 <= W <= H], the
    loop with [STEP = H / W] ends and the slices it has pushed, the
    ranges [[i, min (i + STEP) H)] for [i = 0, STEP, 2 STEP, ...], are
    non-empty ranges of [[0, H)], pairwise disjoint, and every row of
    [[0, H)] belongs to exactly one of them. *)
Theorem slices_partition (H W : Z) (HH : 1 <= H) (HW : 1 <= W <= H) :
  exists threads : list (Z * Z),
    (exists fuel : nat, dispatch_loop H (H / W) fuel (0, []) = Some threads) /\
    (forall (k : nat) (t : Z * Z),
        threads !! k = Some t ->
        t = (Z.of_nat k * (H / W), Z.min (Z.of_nat k * (H / W) + H / W) H) /\
        0 <= fst t < snd t /\ snd t <= H) /\
    (forall (k k' : nat) (t t' : Z * Z) (y : Z),
        threads !! k = Some t -> threads !! k' = Some t' -> k <> k' ->
        ~ (covers t y /\ covers t' y)) /\
    (forall y : Z, 0 <= y < H ->
        exists (k : nat) (t : Z * Z),
          threads !! k = Some t /\ covers t y /\
          forall (k' : nat) (t' : Z * Z),
            threads !! k' = Some t' -> covers t' y -> k' = k) /\
    (forall (k : nat) (t : Z * Z) (y : Z),
        threads !! k = Some t -> covers t y -> 0 <= y < H).
Proof.
  assert (HS : 1 <= H / W) by (apply Z.div_le_lower_bound; lia).
  exists (slices H (H / W)).
  split.
  { exists (S (slice_count H (H / W))).
    rewrite (dispatch_loop_slices H _ HS (slice_count H (H / W)) 0 [])
      by first [reflexivity | lia].
    reflexivity. }
  split.
  { intros k t Hl. split.
    - apply slices_lookup_inv in Hl as [_ ->]. f_equal. f_equal. lia.
    - apply (slices_valid H (H / W) k t HS ltac:(lia) Hl). }
  split.
  { intros k k' t t' y Hl Hl' Hne [Hc Hc'].
    exact (slices_disjoint H (H / W) k k' t t' y HS Hl Hl' Hne Hc Hc'). }
  split.
  { intros y Hy. exists (Z.to_nat (y / (H / W))). eexists.
    split; [apply (slices_lookup_row H (H / W) y HS Hy)|].
    split.
    - apply (slices_covers H (H / W) y _ _ HS Hy
               (slices_lookup_row H (H / W) y HS Hy)). reflexivity.
    - intros k' t' Hl' Hc'.
      apply (slices_covers H (H / W) y k' t' HS Hy Hl'). exact Hc'. }
  intros k t y Hl Hc.
  pose proof (slices_valid H (H / W) k t HS ltac:(lia) Hl).
  unfold covers in Hc. lia.
Qed.

(** Ten rows for three workers: the slices [0,3) [3,6) [6,9) [9,10). *)
Lemma slices_partition_witness :
  1 <= 10 /\ 1 <= 3 <= 10 /\
  exists threads : list (Z * Z),
    (exists fuel : nat, dispatch_loop 10 (10 / 3) fuel (0, []) = Some threads) /\
    (forall (k : nat) (t : Z * Z),
        threads !! k = Some t ->
        t = (Z.of_nat k * (10 / 3), Z.min (Z.of_nat k * (10 / 3) + 10 / 3) 10) /\
        0 <= fst t < snd t /\ snd t <= 10) /\
    (forall (k k' : nat) (t t' : Z * Z) (y : Z),
        threads !! k = Some t -> threads !! k' = Some t' -> k <> k' ->
        ~ (covers t y /\ covers t' y)) /\
    (forall y : Z, 0 <= y < 10 ->
        exists (k : nat) (t : Z * Z),
          threads !! k = Some t /\ covers t y /\
          forall (k' : nat) (t' : Z * Z),
            threads !! k' = Some t' -> covers t' y -> k' = k) /\
    (forall (k : nat) (t : Z * Z) (y : Z),
        threads !! k = Some t -> covers t y -> 0 <= y < 10).
Proof.
  split; [lia|]. split; [lia|].
  apply (slices_partition 10 3); lia.
Defined.

(** C4, as amended.  For every hardware concurrency [W] from 1 to
    [IMAGE_HEIGHT], with [STEP = IMAGE_HEIGHT / W], the loop pushes
    [ceil (IMAGE_HEIGHT / STEP)] slices: at least [W], and exactly [W]
    when [W] divides the height.  Slice [k] starts at row [k * STEP];
    every slice but the last has [STEP] rows and the last one, cut at the
    image height, has the rows that remain (between 1 and [STEP]).  Every
    row belongs to exactly one slice. *)
Theorem slices_layout (W : Z) (HW : 1 <= W <= IMAGE_HEIGHT) :
  let STEP := IMAGE_HEIGHT / W in
  exists threads : list (Z * Z),
    let n := Z.of_nat (length threads) in
    (exists fuel : nat,
        dispatch_loop IMAGE_HEIGHT STEP fuel (0, []) = Some threads) /\
    n = (IMAGE_HEIGHT + STEP - 1) / STEP /\
    W <= n /\
    (IMAGE_HEIGHT mod W = 0 -> n = W) /\
    (forall (k : nat) (t : Z * Z),
        threads !! k = Some t ->
        fst t = Z.of_nat k * STEP /\
        (Z.of_nat k < n - 1 -> snd t = fst t + STEP) /\
        (Z.of_nat k = n - 1 ->
         snd t = IMAGE_HEIGHT /\ 1 <= snd t - fst t <= STEP)) /\
    (forall y : Z, 0 <= y < IMAGE_HEIGHT ->
        exists (k : nat) (t : Z * Z),
          threads !! k = Some t /\ covers t y /\
          forall (k' : nat) (t' : Z * Z),
            threads !! k' = Some t' -> covers t' y -> k' = k).
Proof.
  cbn zeta. set (STEP := IMAGE_HEIGHT / W).
  assert (HH : 0 < IMAGE_HEIGHT) by (unfold IMAGE_HEIGHT; lia).
  assert (HS : 1 <= STEP) by (apply step_positive_iff; lia).
  assert (Hmul : W * STEP <= IMAGE_HEIGHT)
    by (unfold STEP; apply Z.mul_div_le; lia).
  pose proof (slice_count_eq IMAGE_HEIGHT STEP HS HH) as Hcount.
  assert (Hlen : Z.of_nat (length (slices IMAGE_HEIGHT STEP)) =
                 (IMAGE_HEIGHT - 1) / STEP + 1).
  { unfold slices. rewrite length_slices_from. exact Hcount. }
  pose proof (Z.mul_div_le (IMAGE_HEIGHT - 1) STEP ltac:(lia)) as Hq1.
  pose proof (Z.mul_succ_div_gt (IMAGE_HEIGHT - 1) STEP ltac:(lia)) as Hq2.
  exists (slices IMAGE_HEIGHT STEP).
  split.
  { exists (S (slice_count IMAGE_HEIGHT STEP)).
    rewrite (dispatch_loop_slices IMAGE_HEIGHT _ HS (slice_count IMAGE_HEIGHT STEP) 0 [])
      by first [reflexivity | lia].
    reflexivity. }
  split.
  { rewrite Hlen.
    replace (IMAGE_HEIGHT + STEP - 1) with ((IMAGE_HEIGHT - 1) + 1 * STEP) by lia.
    rewrite Z.div_add by lia. reflexivity. }
  split.
  { rewrite Hlen.
    assert (W - 1 <= (IMAGE_HEIGHT - 1) / STEP); [|lia].
    apply Z.div_le_lower_bound; nia. }
  split.
  { intros Hmod. rewrite Hlen.
    assert (Heq : IMAGE_HEIGHT = W * STEP).
    { unfold STEP. pose proof (Z.div_mod IMAGE_HEIGHT W ltac:(lia)). lia. }
    assert ((IMAGE_HEIGHT - 1) / STEP = W - 1); [|lia].
    symmetry. apply (Z.div_unique _ STEP (W - 1) (STEP - 1)); lia. }
  split.
  { intros k t Hl. rewrite Hlen.
    apply slices_lookup_inv in Hl as [Hk ->]. cbn [fst snd].
    split; [reflexivity|]. split.
    - intros Hlt. assert ((Z.of_nat k + 1) * STEP <= (IMAGE_HEIGHT - 1) / STEP * STEP)
        by nia. lia.
    - intros Heq. replace (Z.of_nat k) with ((IMAGE_HEIGHT - 1) / STEP) by lia. nia. }
  intros y Hy. exists (Z.to_nat (y / STEP)). eexists.
  split; [apply (slices_lookup_row IMAGE_HEIGHT STEP y HS Hy)|].
  split.
  - apply (slices_covers IMAGE_HEIGHT STEP y _ _ HS Hy
             (slices_lookup_row IMAGE_HEIGHT STEP y HS Hy)). reflexivity.
  - intros k' t' Hl' Hc'.
    apply (slices_covers IMAGE_HEIGHT STEP y k' t' HS Hy Hl'). exact Hc'.
Qed.

(** Seven workers: a step of 77 rows. *)
Lemma slices_layout_witness :
  1 <= 7 <= IMAGE_HEIGHT /\
  exists threads : list (Z * Z),
    (exists fuel : nat,
        dispatch_loop IMAGE_HEIGHT (IMAGE_HEIGHT / 7) fuel (0, []) = Some threads) /\
    7 <= Z.of_nat (length threads).
Proof.
  split; [unfold IMAGE_HEIGHT; lia|].
  destruct (slices_layout 7 ltac:(unfold IMAGE_HEIGHT; lia))
    as (threads & Hloop & _ & Hn & _).
  exists threads. split; [exact Hloop | exact Hn].
Defined.

(** C4 as stated fails.  With a hardware concurrency of 7 the step is 77
    and the loop pushes eight slices, not seven: the seventh ends at row
    539 and the remaining row is an eighth slice of its own. *)
Lemma seven_workers_eight_slices :
  dispatch_loop IMAGE_HEIGHT (IMAGE_HEIGHT / 7) 9 (0, []) =
    Some [(0, 77); (77, 154); (154, 231); (231, 308); (308, 385); (385, 462);
          (462, 539); (539, 540)] /\
  length [(0, 77); (77, 154); (154, 231); (231, 308); (308, 385); (385, 462);
          (462, 539); (539, 540)] <> 7%nat.
Proof. split; [vm_compute; reflexivity | cbn; lia]. Qed.

(** ** The palette table *)

Lemma channels_agree_all :
  forallb channels_agree (seq 0 (Z.to_nat (kMaxIterations + 1))) = true.
Proof. vm_compute. reflexivity. Qed.

Lemma mb_new : Mandelbrot_new = Some mb.
Proof. vm_compute. reflexivity. Qed.

Lemma GetColor_channels_spec (i : Z) :
  0 <= i <= kMaxIterations ->
  exists r g b : Z,
    GetColor_channels i = Some (r, g, b) /\ spec_channels i = (r, g, b) /\
    0 <= r <= 255 /\ 0 <= g <= 255 /\ 0 <= b <= 255.
Proof.
  intros Hi.
  pose proof channels_agree_all as Hall.
  rewrite forallb_forall in Hall.
  specialize (Hall (Z.to_nat i)).
  assert (Hin : In (Z.to_nat i) (seq 0 (Z.to_nat (kMaxIterations + 1)))).
  { apply in_seq. unfold kMaxIterations in *. lia. }
  specialize (Hall Hin). unfold channels_agree in Hall.
  rewrite Z2Nat.id in Hall by lia.
  destruct (GetColor_channels i) as [[[r g] b]|]; [|discriminate].
  destruct (spec_channels i) as [[r' g'] b'].
  exists r, g, b.
  repeat (apply andb_prop in Hall as [Hall ?]).
  split; [reflexivity|]. split; [repeat f_equal; lia|]. lia.
Qed.

(** C8.  The constructor builds the table, and for every [i] in
    [[0, kMaxIterations]] the three channels [GetColor] computes in
    binary64 are the integers [floor (9 (1-t) t^3 255)],
    [floor (15 (1-t)^2 t^2 255)], [floor (8.5 (1-t)^3 t 255)] of the
    exact polynomials at [t = i / kMaxIterations]; each lies in
    [[0, 255]], so the conversion to 8 bits stores it unchanged, and entry
    [i] of the table holds exactly these channels.  At [t = 0] and
    [t = 1] the polynomials are 0 and the entries are black. *)
Theorem palette_channels :
  exists this : Mandelbrot,
    Mandelbrot_new = Some this /\
    length (colors this) = Z.to_nat (kMaxIterations + 1) /\
    (forall i : Z, 0 <= i <= kMaxIterations ->
       exists r g b : Z,
         GetColor_channels i = Some (r, g, b) /\
         spec_channels i = (r, g, b) /\
         0 <= r <= 255 /\ 0 <= g <= 255 /\ 0 <= b <= 255 /\
         sfColor r g b = mkColor r g b 255 /\
         colors this !! Z.to_nat i = Some (mkColor r g b 255)) /\
    spec_channels 0 = (0, 0, 0) /\
    spec_channels kMaxIterations = (0, 0, 0) /\
    colors this !! Z.to_nat 0 = Some (mkColor 0 0 0 255) /\
    colors this !! Z.to_nat kMaxIterations = Some (mkColor 0 0 0 255).
Proof.
  exists mb. split; [exact mb_new|].
  destruct (Mandelbrot_new_colors mb mb_new) as [Hlen Hcol].
  split; [exact Hlen|].
  assert (Hentry : forall i : Z, 0 <= i <= kMaxIterations ->
            exists r g b : Z,
              GetColor_channels i = Some (r, g, b) /\
              spec_channels i = (r, g, b) /\
              0 <= r <= 255 /\ 0 <= g <= 255 /\ 0 <= b <= 255 /\
              sfColor r g b = mkColor r g b 255 /\
              colors mb !! Z.to_nat i = Some (mkColor r g b 255)).
  { intros i Hi.
    destruct (GetColor_channels_spec i Hi) as (r & g & b & Hch & Hspec & Hr & Hg & Hb).
    exists r, g, b.
    assert (Hstore : sfColor r g b = mkColor r g b 255).
    { unfold sfColor. rewrite !Z.mod_small by lia. reflexivity. }
    repeat (split; [assumption|]).
    rewrite (Hcol i Hi). unfold GetColor. rewrite Hch, Hstore. reflexivity. }
  split; [exact Hentry|].
  assert (H0 : spec_channels 0 = (0, 0, 0)) by (vm_compute; reflexivity).
  assert (H1 : spec_channels kMaxIterations = (0, 0, 0)) by (vm_compute; reflexivity).
  split; [exact H0|]. split; [exact H1|].
  split.
  - destruct (Hentry 0 ltac:(unfold kMaxIterations; lia))
      as (r & g & b & _ & Hspec & _ & _ & _ & _ & Hl).
    rewrite H0 in Hspec. injection Hspec as <- <- <-. exact Hl.
  - destruct (Hentry kMaxIterations ltac:(unfold kMaxIterations; lia))
      as (r & g & b & _ & Hspec & _ & _ & _ & _ & Hl).
    rewrite H1 in Hspec. injection Hspec as <- <- <-. exact Hl.
Qed.

(** ** The coordinate transform *)








(** ** Frames *)

Lemma image0_surface : surface image0.
Proof.
  unfold surface, image0; cbn [size_x size_y pixels].
  rewrite length_replicate. auto.
Qed.

(** The color of a pixel is an entry of the table. *)
Lemma pixel_color_entry (this : Mandelbrot) (zoom offset_X offset_Y : float)
    (minY x y : Z) :
  Mandelbrot_new = Some this ->
  let value := ComputeMandelbrot (c_real_at zoom offset_X x)
                 (c_imag_at zoom offset_Y minY y) in
  0 <= value <= kMaxIterations /\
  colors this !! Z.to_nat value =
    Some (pixel_color this zoom offset_X offset_Y minY x y).
Proof.
  intros Hnew. cbn zeta.
  pose proof (ComputeMandelbrot_range (c_real_at zoom offset_X x)
                (c_imag_at zoom offset_Y minY y)) as Hrange.
  split; [exact Hrange|].
  destruct (Mandelbrot_new_colors this Hnew) as [_ Hcol].
  unfold pixel_color, color_at. rewrite (Hcol _ Hrange).
  destruct (GetColor_channels_spec _ Hrange) as (r & g & b & Hch & _).
  unfold GetColor. rewrite Hch. reflexivity.
Qed.

(** With the starts in agreement, a row has the same imaginary part in
    its slice as in a single slice. *)
Lemma c_imag_at_slice {D : Type} `{DoubleOps D} (zoom offset_Y : D) (STEP y : Z) :
  1 <= STEP -> 0 <= y < IMAGE_HEIGHT -> starts_agree zoom offset_Y STEP ->
  c_imag_at zoom offset_Y (y / STEP * STEP) y = c_imag_at zoom offset_Y 0 y.
Proof.
  intros HS Hy Hstarts. unfold starts_agree in Hstarts.
  rewrite Forall_lookup in Hstarts.
  specialize (Hstarts _ _ (slices_lookup_row IMAGE_HEIGHT STEP y HS Hy)).
  cbn [fst] in Hstarts.
  assert (Ha : 0 <= y / STEP * STEP <= y).
  { pose proof (Z.mul_div_le y STEP ltac:(lia)).
    assert (0 <= y / STEP) by (apply Z.div_pos; lia). nia. }
  unfold c_imag_at. rewrite Hstarts, <- accumulate_add. f_equal. lia.
Qed.

(** With the starts in agreement the slices of a step [STEP] give the
    frame of a single slice. *)
Lemma slices_frame_independent {D : Type} `{DoubleOps D} (this : Mandelbrot)
    (zoom offset_X offset_Y : D) (STEP : Z) (img : Image) :
  1 <= STEP -> surface img -> starts_agree zoom offset_Y STEP ->
  run_threads this zoom offset_X offset_Y (slices IMAGE_HEIGHT STEP) img =
  run_threads this zoom offset_X offset_Y (slices IMAGE_HEIGHT (IMAGE_HEIGHT / 1)) img.
Proof.
  intros HS Hs Hstarts.
  assert (H1 : 1 <= IMAGE_HEIGHT / 1) by (rewrite Z.div_1_r; unfold IMAGE_HEIGHT; lia).
  apply surface_ext; try (apply run_threads_surface, Hs).
  intros x y Hf.
  etransitivity;
    [exact (slices_frame_pixel this zoom offset_X offset_Y _ img x y HS Hs Hf)|].
  symmetry. etransitivity;
    [exact (slices_frame_pixel this zoom offset_X offset_Y _ img x y H1 Hs Hf)|].
  apply (f_equal Some). unfold pixel_color.
  rewrite (c_imag_at_slice zoom offset_Y _ y HS (proj2 Hf) Hstarts).
  replace (y / (IMAGE_HEIGHT / 1) * (IMAGE_HEIGHT / 1)) with 0; [reflexivity|].
  rewrite Z.div_1_r, Z.div_small by (destruct Hf; lia). reflexivity.
Qed.

(** C7, as amended.  The frame computed in the slices of a hardware
    concurrency [N] (from 1 to [IMAGE_HEIGHT]) is pixel for pixel the frame
    computed as one slice, provided that the imaginary start value of
    every slice is the value a single slice has accumulated when it
    reaches that row.  (In exact arithmetic that holds for every viewport;
    on doubles it holds when the additions of [zoom] do not round.) *)
Theorem slicing_independent {D : Type} `{DoubleOps D} (this : Mandelbrot)
    (zoom offset_X offset_Y : D) (N : Z) (fuel : nat) (img : Image)
    (HN : 1 <= N <= IMAGE_HEIGHT) (Hfuel : (Z.to_nat IMAGE_HEIGHT < fuel)%nat)
    (Hs : surface img) (Hstarts : starts_agree zoom offset_Y (IMAGE_HEIGHT / N)) :
  exists img' : Image,
    UpdateImage this fuel 1 zoom offset_X offset_Y img = Returned img' /\
    UpdateImage this fuel N zoom offset_X offset_Y img = Returned img'.
Proof.
  rewrite (UpdateImage_enough_fuel this zoom offset_X offset_Y fuel 1 img)
    by (unfold IMAGE_HEIGHT in *; lia).
  rewrite (UpdateImage_enough_fuel this zoom offset_X offset_Y fuel N img)
    by (unfold IMAGE_HEIGHT in *; lia).
  eexists. split; [reflexivity|]. apply (f_equal Returned).
  apply slices_frame_independent; [apply step_positive_iff; lia | exact Hs | exact Hstarts].
Qed.

(** Four workers at [zoom = 2^-8], [offset_Y = 0.25]: every coordinate is
    a multiple of [2^-8] below 2, and no addition rounds. *)
Lemma slicing_independent_witness :
  exists img' : Image,
    UpdateImage mb 541 1 0.00390625%float offset_X0 0.25%float image0 = Returned img' /\
    UpdateImage mb 541 4 0.00390625%float offset_X0 0.25%float image0 = Returned img'.
Proof.
  apply (slicing_independent mb 0.00390625%float offset_X0 0.25%float 4 541 image0).
  - unfold IMAGE_HEIGHT. lia.
  - unfold IMAGE_HEIGHT. lia.
  - exact image0_surface.
  - unfold starts_agree.
    replace (slices IMAGE_HEIGHT (IMAGE_HEIGHT / 4))
      with [(0, 135); (135, 270); (270, 405); (405, 540)]
      by (vm_compute; reflexivity).
    repeat constructor; vm_compute; reflexivity.
Defined.

(** C7 as stated fails on doubles.  At the first viewport of [main] the
    pixel (155, 270) of the frame computed as one slice is the palette
    entry 26, (0, 2, 52): the imaginary part accumulated over 270 rows is
    [0x1.f000000000000p-51], not 0.  With two slices the second one
    starts at row 270 with the imaginary part 0 exactly, the orbit stays
    on the real axis and never escapes, and the pixel is the palette entry
    1000, black. *)
Lemma two_slices_differ :
  exists img1 img2 : Image,
    UpdateImage mb 541 1 zoom0 offset_X0 offset_Y0 image0 = Returned img1 /\
    UpdateImage mb 541 2 zoom0 offset_X0 offset_Y0 image0 = Returned img2 /\
    getPixel img1 155 270 = Some (mkColor 0 2 52 255) /\
    getPixel img2 155 270 = Some (mkColor 0 0 0 255) /\
    img1 <> img2.
Proof.
  do 2 eexists.
  split; [apply UpdateImage_enough_fuel; unfold IMAGE_HEIGHT; lia|].
  split; [apply UpdateImage_enough_fuel; unfold IMAGE_HEIGHT; lia|].
  assert (Hf : in_frame 155 270) by (unfold in_frame, IMAGE_WIDTH, IMAGE_HEIGHT; lia).
  assert (P1 : getPixel (run_threads mb zoom0 offset_X0 offset_Y0
                 (slices IMAGE_HEIGHT (IMAGE_HEIGHT / 1)) image0) 155 270
               = Some (mkColor 0 2 52 255)).
  { rewrite slices_frame_pixel;
      [vm_compute; reflexivity | vm_compute; discriminate | exact image0_surface
      | exact Hf]. }
  assert (P2 : getPixel (run_threads mb zoom0 offset_X0 offset_Y0
                 (slices IMAGE_HEIGHT (IMAGE_HEIGHT / 2)) image0) 155 270
               = Some (mkColor 0 0 0 255)).
  { rewrite slices_frame_pixel;
      [vm_compute; reflexivity | vm_compute; discriminate | exact image0_surface
      | exact Hf]. }
  split; [exact P1|]. split; [exact P2|].
  intros Heq. rewrite Heq, P2 in P1. clear Heq. discriminate P1.
Qed.

(** C1, as amended.  For every viewport and every surface of
    [IMAGE_WIDTH x IMAGE_HEIGHT] pixels, when [UpdateImage] returns, every
    pixel [(x, y)] of the frame holds exactly the palette color indexed by
    the iteration count of the kernel at the coordinate the slice loop has
    accumulated for that pixel: the real part accumulated over [x]
    columns, the imaginary part accumulated from the first row of the
    slice of [y].  The count is a valid index of the table, nothing of the
    surface passed in is left, and the surface keeps its size. *)
Theorem UpdateImage_frame (this : Mandelbrot) (fuel : nat) (hc : Z)
    (zoom offset_X offset_Y : float) (img img' : Image)
    (Hnew : Mandelbrot_new = Some this) (Hs : surface img)
    (Hret : UpdateImage this fuel hc zoom offset_X offset_Y img = Returned img') :
  surface img' /\
  forall x y : Z, in_frame x y ->
    let STEP := IMAGE_HEIGHT / hc in
    let value := ComputeMandelbrot (c_real_at zoom offset_X x)
                   (c_imag_at zoom offset_Y (y / STEP * STEP) y) in
    0 <= value <= kMaxIterations /\
    exists c : Color,
      GetColor value = Some c /\
      colors this !! Z.to_nat value = Some c /\
      getPixel img' x y = Some c.
Proof.
  split; [exact (UpdateImage_surface this zoom offset_X offset_Y fuel hc img img' Hs Hret)|].
  intros x y Hf. cbn zeta.
  destruct (pixel_color_entry this zoom offset_X offset_Y
              (y / (IMAGE_HEIGHT / hc) * (IMAGE_HEIGHT / hc)) x y Hnew)
    as [Hrange Hentry].
  split; [exact Hrange|].
  eexists. split; [|split; [exact Hentry|]].
  - destruct (Mandelbrot_new_colors this Hnew) as [_ Hcol].
    rewrite <- (Hcol _ Hrange). exact Hentry.
  - exact (UpdateImage_pixel this zoom offset_X offset_Y fuel hc img img' x y Hs Hret Hf).
Qed.

(** The first frame of [main] on four workers. *)
Lemma UpdateImage_frame_witness :
  Mandelbrot_new = Some mb /\ surface image0 /\
  exists img' : Image,
    UpdateImage mb 541 4 zoom0 offset_X0 offset_Y0 image0 = Returned img' /\
    surface img' /\
    forall x y : Z, in_frame x y -> exists c : Color, getPixel img' x y = Some c.
Proof.
  split; [exact mb_new|]. split; [exact image0_surface|].
  eexists. split; [apply UpdateImage_enough_fuel; unfold IMAGE_HEIGHT; lia|].
  destruct (UpdateImage_frame mb 541 4 zoom0 offset_X0 offset_Y0 image0 _ mb_new
              image0_surface
              (UpdateImage_enough_fuel mb zoom0 offset_X0 offset_Y0 541 4 image0
                 ltac:(unfold IMAGE_HEIGHT; lia) ltac:(unfold IMAGE_HEIGHT; lia)))
    as [Hsurface Hpixels].
  split; [exact Hsurface|].
  intros x y Hf. destruct (Hpixels x y Hf) as (_ & c & _ & _ & Hc).
  exists c. exact Hc.
Defined.

(** C1 as stated fails on doubles.  In the first frame of [main],
    computed as a single slice, the pixel (655, 20) holds the palette
    entry 39, (0, 5, 75): the kernel ran on the accumulated coordinate.
    On the coordinate of the pixel by the formulas of the specification
    the kernel returns 45, whose palette entry is (0, 7, 84). *)
Lemma frame_pixel_off_formula :
  exists img' : Image,
    UpdateImage mb 541 1 zoom0 offset_X0 offset_Y0 image0 = Returned img' /\
    getPixel img' 655 20 = Some (mkColor 0 5 75 255) /\
    ComputeMandelbrot (transform_real zoom0 offset_X0 655)
      (transform_imag zoom0 offset_Y0 20) = 45 /\
    colors mb !! Z.to_nat 45 = Some (mkColor 0 7 84 255) /\
    colors mb !! Z.to_nat 39 = Some (mkColor 0 5 75 255) /\
    getPixel img' 655 20 <> colors mb !! Z.to_nat 45.
Proof.
  eexists.
  split; [apply UpdateImage_enough_fuel; unfold IMAGE_HEIGHT; lia|].
  assert (Hf : in_frame 655 20) by (unfold in_frame, IMAGE_WIDTH, IMAGE_HEIGHT; lia).
  assert (P : getPixel (run_threads mb zoom0 offset_X0 offset_Y0
                (slices IMAGE_HEIGHT (IMAGE_HEIGHT / 1)) image0) 655 20
              = Some (mkColor 0 5 75 255)).
  { etransitivity;
      [apply slices_frame_pixel;
         [vm_compute; discriminate | exact image0_surface | exact Hf]|].
    vm_compute. reflexivity. }
  assert (Q : colors mb !! Z.to_nat 45 = Some (mkColor 0 7 84 255))
    by (vm_compute; reflexivity).
  split; [exact P|].
  split; [vm_compute; reflexivity|].
  split; [exact Q|].
  split; [vm_compute; reflexivity|].
  rewrite P, Q. intros Heq. discriminate Heq.
Qed.

(** ** The order of the threads *)

Section ThreadOrder.
Context {D : Type} `{DoubleOps D}.
Variable this : Mandelbrot.
Variables zoom offset_X offset_Y : D.

(** The pixel of a covered row, for threads in any order: slices that
    share a row start at the same row. *)
Lemma run_threads_pixel_elem (threads : list (Z * Z)) (x y : Z) :
  in_frame x y ->
  forall (img : Image) (t : Z * Z),
    surface img -> Forall slice_ok threads ->
    t ∈ threads -> covers t y ->
    (forall t' : Z * Z, t' ∈ threads -> covers t' y -> fst t' = fst t) ->
    getPixel (run_threads this zoom offset_X offset_Y threads img) x y =
    Some (pixel_color this zoom offset_X offset_Y (fst t) x y).
Proof.
  intros Hf. induction threads as [|t0 threads IH];
    intros img t Hs Hok Hin Hc Hsame; [inversion Hin|].
  inversion Hok as [|? ? [Ht1 Ht2] Hok']; subst.
  cbn [run_threads fold_left].
  fold (run_threads this zoom offset_X offset_Y threads
          (UpdateImageSlice this zoom offset_X offset_Y img (fst t0) (snd t0))).
  destruct (decide (Exists (fun t' : Z * Z => fst t' <= y < snd t') threads))
    as [Hex|Hnex].
  - apply Exists_exists in Hex as (t' & Hin' & Hc').
    rewrite (IH _ t'); [| apply UpdateImageSlice_surface, Hs | exact Hok'
                       | exact Hin' | exact Hc' |].
    + rewrite (Hsame t'); [reflexivity | right; exact Hin' | exact Hc'].
    + intros t'' Hin'' Hc''.
      rewrite (Hsame t'' ltac:(right; exact Hin'') Hc'').
      symmetry. apply Hsame; [right; exact Hin' | exact Hc'].
  - rewrite run_threads_untouched;
      [| exact Hf | apply UpdateImageSlice_surface, Hs | exact Hok' |].
    + rewrite UpdateImageSlice_pixel by assumption.
      apply elem_of_cons in Hin as [->|Hin].
      * rewrite decide_True by exact Hc. reflexivity.
      * exfalso. apply Hnex, Exists_exists. exists t. split; assumption.
    + apply Forall_forall. intros t' Hin' Hc'.
      apply Hnex, Exists_exists. exists t'. split; assumption.
Qed.

(** Threads whose slices share no row may run in any order: the frame is
    the same. *)
Lemma run_threads_order (threads threads' : list (Z * Z)) (img : Image) :
  threads ≡ₚ threads' -> surface img -> Forall slice_ok threads ->
  (forall (t t' : Z * Z) (y : Z),
      t ∈ threads -> t' ∈ threads -> covers t y -> covers t' y -> fst t' = fst t) ->
  run_threads this zoom offset_X offset_Y threads img =
  run_threads this zoom offset_X offset_Y threads' img.
Proof.
  intros Hperm Hs Hok Hdisj.
  assert (Hok' : Forall slice_ok threads') by (rewrite <- Hperm; exact Hok).
  apply surface_ext; try (apply run_threads_surface, Hs).
  intros x y Hf.
  destruct (decide (Exists (fun t' : Z * Z => fst t' <= y < snd t') threads))
    as [Hex|Hnex].
  - apply Exists_exists in Hex as (t & Hin & Hc).
    rewrite (run_threads_pixel_elem threads x y Hf img t Hs Hok Hin Hc);
      [| intros t' Hin' Hc'; exact (Hdisj t t' y Hin Hin' Hc Hc')].
    rewrite (run_threads_pixel_elem threads' x y Hf img t Hs Hok');
      [reflexivity | rewrite <- Hperm; exact Hin | exact Hc |].
    intros t' Hin' Hc'. rewrite <- Hperm in Hin'.
    exact (Hdisj t t' y Hin Hin' Hc Hc').
  - rewrite !run_threads_untouched; try assumption; [reflexivity | |].
    + apply Forall_forall. intros t' Hin' Hc'. rewrite <- Hperm in Hin'.
      apply Hnex, Exists_exists. exists t'. split; assumption.
    + apply Forall_forall. intros t' Hin' Hc'.
      apply Hnex, Exists_exists. exists t'. split; assumption.
Qed.

End ThreadOrder.

(** ** Further properties of the frame update *)

(** The joined threads of two half frames give the same frame in either
    order. *)
Theorem run_threads_swap {D : Type} `{DoubleOps D} (this : Mandelbrot)
    (zoom offset_X offset_Y : D) (img : Image) (a b c : Z)
    (Hs : surface img) (Hab : 0 <= a <= b) (Hbc : b <= c <= IMAGE_HEIGHT) :
  run_threads this zoom offset_X offset_Y [(a, b); (b, c)] img =
  run_threads this zoom offset_X offset_Y [(b, c); (a, b)] img.
Proof.
  apply run_threads_order; [apply perm_swap | exact Hs | |].
  - repeat constructor; cbn [fst snd]; lia.
  - intros t t' y Hin Hin' Hc Hc'.
    apply elem_of_cons in Hin as [->|Hin]; [|apply list_elem_of_singleton in Hin as ->];
      (apply elem_of_cons in Hin' as [->|Hin'];
       [|apply list_elem_of_singleton in Hin' as ->]);
      unfold covers in *; cbn [fst snd] in *; lia.
Qed.

Lemma run_threads_swap_witness :
  run_threads mb zoom0 offset_X0 offset_Y0 [(0, 270); (270, 540)] image0 =
  run_threads mb zoom0 offset_X0 offset_Y0 [(270, 540); (0, 270)] image0.
Proof.
  apply (run_threads_swap mb zoom0 offset_X0 offset_Y0 image0 0 270 540).
  - exact image0_surface.
  - lia.
  - unfold IMAGE_HEIGHT. lia.
Defined.






(** ** What a slice and the dispatch loop never do *)

(** A slice writes the pixels of its own rows, each with the color of
    that pixel, and no pixel of any other row; the surface keeps its
    size. *)
Theorem UpdateImageSlice_writes_its_rows {D : Type} `{DoubleOps D}
    (this : Mandelbrot) (zoom offset_X offset_Y : D) (img : Image) (minY maxY : Z)
    (Hs : surface img) (Hmin : 0 <= minY <= maxY) (Hmax : maxY <= IMAGE_HEIGHT) :
  let img' := UpdateImageSlice this zoom offset_X offset_Y img minY maxY in
  surface img' /\
  forall x y : Z, in_frame x y ->
    (minY <= y < maxY ->
     getPixel img' x y = Some (pixel_color this zoom offset_X offset_Y minY x y)) /\
    (~ minY <= y < maxY -> getPixel img' x y = getPixel img x y).
Proof.
  cbn zeta. split; [apply UpdateImageSlice_surface, Hs|].
  intros x y Hf.
  rewrite (UpdateImageSlice_pixel this zoom offset_X offset_Y img minY maxY x y
             Hs Hmin Hmax Hf).
  split; intros Hy.
  - rewrite decide_True by exact Hy. reflexivity.
  - rewrite decide_False by exact Hy. reflexivity.
Qed.

(** The second of four slices of the first frame of [main]. *)
Lemma UpdateImageSlice_writes_its_rows_witness :
  surface (UpdateImageSlice mb zoom0 offset_X0 offset_Y0 image0 135 270) /\
  forall x y : Z, in_frame x y -> ~ 135 <= y < 270 ->
    getPixel (UpdateImageSlice mb zoom0 offset_X0 offset_Y0 image0 135 270) x y =
    getPixel image0 x y.
Proof.
  destruct (UpdateImageSlice_writes_its_rows mb zoom0 offset_X0 offset_Y0 image0
              135 270 image0_surface ltac:(lia) ltac:(unfold IMAGE_HEIGHT; lia))
    as [Hsurface Hpixels].
  split; [exact Hsurface|].
  intros x y Hf Hy. exact (proj2 (Hpixels x y Hf) Hy).
Defined.

(** The slices of the partition, as members of the list. *)
Lemma slices_share_no_row (H STEP : Z) (t t' : Z * Z) (y : Z) :
  1 <= STEP -> t ∈ slices H STEP -> t' ∈ slices H STEP ->
  covers t y -> covers t' y -> fst t' = fst t.
Proof.
  intros HS Hin Hin' Hc Hc'.
  apply list_elem_of_lookup in Hin as [k Hk].
  apply list_elem_of_lookup in Hin' as [k' Hk'].
  destruct (decide (k = k')) as [->|Hne].
  - rewrite Hk in Hk'. injection Hk' as ->. reflexivity.
  - exfalso. exact (slices_disjoint H STEP k k' t t' y HS Hk Hk' Hne Hc Hc').
Qed.

(** The frame [UpdateImage] returns is the frame of the threads it has
    started, run one after the other in any order whatever. *)
Theorem UpdateImage_any_thread_order {D : Type} `{DoubleOps D} (this : Mandelbrot)
    (zoom offset_X offset_Y : D) (fuel : nat) (hc : Z) (img : Image)
    (started threads : list (Z * Z)) (Hs : surface img)
    (Hstarted : dispatch_loop IMAGE_HEIGHT (IMAGE_HEIGHT / hc) fuel (0, []) = Some started)
    (Hperm : threads ≡ₚ started) :
  UpdateImage this fuel hc zoom offset_X offset_Y img =
  Returned (run_threads this zoom offset_X offset_Y threads img).
Proof.
  pose proof Hstarted as Hd.
  apply dispatch_loop_result in Hd as [HS ->]; [|unfold IMAGE_HEIGHT; lia].
  unfold UpdateImage.
  destruct (Z.eqb_spec hc 0) as [->|_];
    [rewrite Z.div_0_r in HS; lia|].
  rewrite Hstarted. apply (f_equal Returned).
  apply run_threads_order;
    [symmetry; exact Hperm | exact Hs | apply slices_all_ok, HS |].
  intros t t' y Hin Hin' Hc Hc'.
  exact (slices_share_no_row IMAGE_HEIGHT _ t t' y HS Hin Hin' Hc Hc').
Qed.

(** Three workers, their slices run last to first. *)
Lemma UpdateImage_any_thread_order_witness :
  UpdateImage mb 541 3 zoom0 offset_X0 offset_Y0 image0 =
  Returned (run_threads mb zoom0 offset_X0 offset_Y0
              [(360, 540); (180, 360); (0, 180)] image0).
Proof.
  apply (UpdateImage_any_thread_order mb zoom0 offset_X0 offset_Y0 541 3 image0
           [(0, 180); (180, 360); (360, 540)]).
  - exact image0_surface.
  - vm_compute. reflexivity.
  - symmetry. apply (Permutation_rev [(0, 180); (180, 360); (360, 540)]).
Defined.

(** For a hardware concurrency [hc] from 1 to [IMAGE_HEIGHT] the loop
    starts fewer than twice [hc] threads, and never more than there are
    rows. *)
Theorem thread_count_bound (fuel : nat) (hc : Z) (started : list (Z * Z))
    (Hhc : 1 <= hc <= IMAGE_HEIGHT)
    (Hstarted : dispatch_loop IMAGE_HEIGHT (IMAGE_HEIGHT / hc) fuel (0, []) = Some started) :
  hc <= Z.of_nat (length started) <= 2 * hc - 1 /\
  Z.of_nat (length started) <= IMAGE_HEIGHT.
Proof.
  assert (HH : 0 < IMAGE_HEIGHT) by (unfold IMAGE_HEIGHT; lia).
  apply dispatch_loop_result in Hstarted as [HS ->]; [|exact HH].
  unfold slices. rewrite length_slices_from.
  rewrite (slice_count_eq IMAGE_HEIGHT _ HS HH).
  set (STEP := IMAGE_HEIGHT / hc) in *.
  assert (Hmul : hc * STEP <= IMAGE_HEIGHT)
    by (unfold STEP; apply Z.mul_div_le; lia).
  assert (Hrem : IMAGE_HEIGHT < hc * STEP + hc).
  { unfold STEP. pose proof (Z.div_mod IMAGE_HEIGHT hc ltac:(lia)).
    pose proof (Z.mod_pos_bound IMAGE_HEIGHT hc ltac:(lia)). lia. }
  assert (Hlo : hc - 1 <= (IMAGE_HEIGHT - 1) / STEP)
    by (apply Z.div_le_lower_bound; nia).
  assert (Hhi : (IMAGE_HEIGHT - 1) / STEP < 2 * hc - 1)
    by (apply Z.div_lt_upper_bound; nia).
  assert (Hall : (IMAGE_HEIGHT - 1) / STEP <= IMAGE_HEIGHT - 1).
  { apply Z.div_le_upper_bound; [lia | nia]. }
  lia.
Qed.

(** Eight workers: nine threads. *)
Lemma thread_count_bound_witness :
  1 <= 8 <= IMAGE_HEIGHT /\
  exists started : list (Z * Z),
    dispatch_loop IMAGE_HEIGHT (IMAGE_HEIGHT / 8) 541 (0, []) = Some started /\
    8 <= Z.of_nat (length started) <= 2 * 8 - 1.
Proof.
  split; [unfold IMAGE_HEIGHT; lia|].
  eexists. split; [vm_compute; reflexivity|].
  exact (proj1 (thread_count_bound 541 8 _ ltac:(unfold IMAGE_HEIGHT; lia)
                  ltac:(vm_compute; reflexivity))).
Defined.

(** Every slice pushed in [n] turns lies inside the image. *)
Lemma dispatch_run_threads (H STEP : Z) (n : nat) :
  0 <= STEP -> 0 <= H ->
  forall (i0 : Z) (threads0 : list (Z * Z)) (i : Z) (threads : list (Z * Z)),
    0 <= i0 ->
    Forall (fun t => 0 <= fst t <= snd t /\ snd t <= H) threads0 ->
    dispatch_run H STEP n (i0, threads0) = Some (i, threads) ->
    Forall (fun t => 0 <= fst t <= snd t /\ snd t <= H) threads.
Proof.
  intros HS HH. induction n as [|n IH]; intros i0 threads0 i threads Hi0 Hall Hr.
  - cbn in Hr. injection Hr as <- <-. exact Hall.
  - cbn [dispatch_run dispatch_step] in Hr.
    destruct (Z.ltb_spec i0 H) as [Hi|Hi]; [|discriminate].
    refine (IH (i0 + STEP) _ i threads _ _ Hr); [lia|].
    apply Forall_app. split; [exact Hall|].
    constructor; [cbn [fst snd]; lia | constructor].
Qed.

(** Whatever the hardware concurrency [hc >= 1], at every turn of the
    dispatch loop the index [i], the sum [i + STEP] the loop computes next
    and the bounds of every slice pushed so far stay between 0 and
    [3 * IMAGE_HEIGHT]: no [int] of the loop overflows, also when the loop
    does not end. *)
Theorem dispatch_loop_no_overflow (hc : Z) (n : nat) (i : Z) (threads : list (Z * Z))
    (Hhc : 1 <= hc)
    (Hrun : dispatch_run IMAGE_HEIGHT (IMAGE_HEIGHT / hc) n (0, []) = Some (i, threads)) :
  0 <= IMAGE_HEIGHT / hc <= IMAGE_HEIGHT /\
  0 <= i /\ i + IMAGE_HEIGHT / hc < 3 * IMAGE_HEIGHT /\
  3 * IMAGE_HEIGHT < 2 ^ 31 /\
  Forall (fun t => 0 <= fst t <= snd t /\ snd t <= IMAGE_HEIGHT) threads.
Proof.
  assert (HS : 0 <= IMAGE_HEIGHT / hc <= IMAGE_HEIGHT).
  { split; [apply Z.div_pos; unfold IMAGE_HEIGHT; lia|].
    apply Z.div_le_upper_bound; [lia | unfold IMAGE_HEIGHT; nia]. }
  split; [exact HS|].
  pose proof (dispatch_run_index IMAGE_HEIGHT _ n (proj1 HS) 0 [] i threads Hrun)
    as [Hi Hb].
  assert (Hnn : 0 <= Z.of_nat n * (IMAGE_HEIGHT / hc)) by nia.
  assert (HH : 0 < IMAGE_HEIGHT) by (unfold IMAGE_HEIGHT; lia).
  split; [lia|]. split; [destruct Hb as [->|Hb]; lia|].
  split; [unfold IMAGE_HEIGHT; lia|].
  apply (dispatch_run_threads IMAGE_HEIGHT _ n (proj1 HS)
           ltac:(unfold IMAGE_HEIGHT; lia) 0 [] i threads ltac:(lia)
           ltac:(constructor) Hrun).
Qed.

(** A thousand workers: the step is 0 and the loop goes on for ever;
    after five turns the index is 0. *)
Lemma dispatch_loop_no_overflow_witness :
  1 <= 1000 /\
  exists threads : list (Z * Z),
    dispatch_run IMAGE_HEIGHT (IMAGE_HEIGHT / 1000) 5 (0, []) = Some (0, threads) /\
    0 + IMAGE_HEIGHT / 1000 < 3 * IMAGE_HEIGHT.
Proof.
  split; [lia|].
  eexists. split; [vm_compute; reflexivity|].
  exact (proj1 (proj2 (proj2 (dispatch_loop_no_overflow 1000 5 0 _ ltac:(lia)
                                ltac:(vm_compute; reflexivity))))).
Defined.

(** ** The events of [main] *)

Section EventSpec.
Context {D : Type} `{DoubleOps D} `{DoubleEq D}.

(** The mouse wheel case sets the flag or does nothing at all. *)
Lemma wheel_scrolled_flag (e : Event D) (s : Viewer D) :
  stateChanged (wheel_scrolled e s) = true \/ wheel_scrolled e s = s.
Proof.
  unfold wheel_scrolled.
  destruct (deq (wheel_delta e) (of_int 1)), (deq (wheel_delta e) (of_int (-1)));
    cbn; auto.
Qed.

Lemma wheel_scrolled_none (e : Event D) (s : Viewer D) :
  no_wheel_step e -> wheel_scrolled e s = s.
Proof. intros [H1 H2]. unfold wheel_scrolled. rewrite H1, H2. reflexivity. Qed.

Lemma wheel_scrolled_keeps (e : Event D) (s : Viewer D) :
  isOpen (wheel_scrolled e s) = isOpen s /\
  vzoom_factor (wheel_scrolled e s) = vzoom_factor s /\
  voffset_X (wheel_scrolled e s) = voffset_X s /\
  voffset_Y (wheel_scrolled e s) = voffset_Y s /\
  (stateChanged s = true -> stateChanged (wheel_scrolled e s) = true).
Proof.
  unfold wheel_scrolled.
  destruct (deq (wheel_delta e) (of_int 1)), (deq (wheel_delta e) (of_int (-1)));
    cbn; auto.
Qed.

Lemma same_view_refl (s : Viewer D) : same_view s s.
Proof. unfold same_view. auto. Qed.

Lemma same_view_trans (s1 s2 s3 : Viewer D) :
  same_view s1 s2 -> same_view s2 s3 -> same_view s1 s3.
Proof.
  unfold same_view. intros (Ha & Hb & Hc) (Ha' & Hb' & Hc').
  rewrite Ha', Hb', Hc'. auto.
Qed.

Lemma handle_event_flag (e : Event D) (s : Viewer D) :
  (event_type e = KeyPressed -> key_code e <> Key_other) ->
  stateChanged (handle_event e s) = true \/
  (same_view s (handle_event e s) /\
   stateChanged (handle_event e s) = stateChanged s).
Proof.
  intros Hkey. unfold handle_event.
  destruct (event_type e) eqn:Htype.
  - right. split; [unfold same_view; cbn; auto | reflexivity].
  - left. apply wheel_scrolled_keeps.
    unfold key_pressed.
    destruct (key_code e); try reflexivity.
    exfalso. apply Hkey; reflexivity.
  - destruct (wheel_scrolled_flag e s) as [Hset|Hsame]; [left; exact Hset|].
    right. rewrite Hsame. split; [apply same_view_refl | reflexivity].
  - right. split; [apply same_view_refl | reflexivity].
Qed.

Lemma poll_events_app (events : list (Event D)) (e : Event D) :
  forall s : Viewer D,
    poll_events (events ++ [e]) s =
    if isOpen (poll_events events s) then handle_event e (poll_events events s)
    else poll_events events s.
Proof.
  induction events as [|e0 events IH]; intros s; cbn [poll_events app].
  - destruct (isOpen s); reflexivity.
  - destruct (isOpen s) eqn:Hopen; [apply IH|].
    rewrite Hopen. reflexivity.
Qed.

End EventSpec.

Lemma poll_events_flag {D : Type} `{DoubleOps D} `{DoubleEq D}
    (events : list (Event D)) :
  handled_keys events ->
  forall s : Viewer D,
    stateChanged (poll_events events s) = true \/
    (same_view s (poll_events events s) /\
     stateChanged (poll_events events s) = stateChanged s).
Proof.
  intros Hkeys.
  induction Hkeys as [|e events He Hkeys IH]; intros s; cbn [poll_events].
  - right. split; [apply same_view_refl | reflexivity].
  - destruct (isOpen s);
      [|right; split; [apply same_view_refl | reflexivity]].
    destruct (IH (handle_event e s)) as [Hset|[Hview Hflag]]; [left; exact Hset|].
    destruct (handle_event_flag e s He) as [Hset1|[Hview1 Hflag1]].
    + left. rewrite Hflag. exact Hset1.
    + right. split; [exact (same_view_trans _ _ _ Hview1 Hview)|].
      rewrite Hflag. exact Hflag1.
Qed.

(** Over a batch of events whose key presses are all of keys [main] has a
    case for, the redraw flag is sound: after the batch either
    [stateChanged] is set, or [zoom], [offset_X] and [offset_Y] are the
    values they were before the batch and the flag is as it was. *)
Theorem redraw_flag_sound {D : Type} `{DoubleOps D} `{DoubleEq D}
    (events : list (Event D)) (s : Viewer D) (Hkeys : handled_keys events) :
  stateChanged (poll_events events s) = true \/
  (same_view s (poll_events events s) /\
   stateChanged (poll_events events s) = stateChanged s).
Proof. exact (poll_events_flag events Hkeys s). Qed.

(** A turn of the wheel, a mouse move and the key D after the first
    frame. *)
Lemma redraw_flag_sound_witness :
  handled_keys [mkEvent MouseWheelScrolled Key_other 1%float;
                mkEvent OtherEvent Key_other 0%float;
                mkEvent KeyPressed Key_D 0%float] /\
  stateChanged
    (poll_events [mkEvent MouseWheelScrolled Key_other 1%float;
                  mkEvent OtherEvent Key_other 0%float;
                  mkEvent KeyPressed Key_D 0%float]
       (set_stateChanged false main_viewer)) = true.
Proof.
  assert (Hkeys : handled_keys [mkEvent MouseWheelScrolled Key_other 1%float;
                                mkEvent OtherEvent Key_other 0%float;
                                mkEvent KeyPressed Key_D 0%float]).
  { repeat constructor; cbn; intros; discriminate. }
  split; [exact Hkeys|].
  destruct (redraw_flag_sound _ (set_stateChanged false main_viewer) Hkeys)
    as [Hset|[_ Hflag]]; [exact Hset|].
  vm_compute. reflexivity.
Defined.

(** A key press of a key [main] has no case for clears the redraw flag,
    whatever came before it in the batch: when it is the last event of the
    batch (the window still open, its delta read as neither 1 nor -1), the
    turn of the main loop computes no frame and leaves the image and the
    texture as they were, although the events before it may have changed
    the viewport. *)
Theorem unhandled_key_drops_redraw {D : Type} `{DoubleOps D} `{DoubleEq D}
    (this : Mandelbrot) (fuel : nat) (hc : Z) (events : list (Event D))
    (e : Event D) (s : Viewer D) (image : Image) (texture : option Image)
    (Hopen : isOpen (poll_events events s) = true)
    (Htype : event_type e = KeyPressed) (Hkey : key_code e = Key_other)
    (Hdelta : no_wheel_step e) :
  let s' := poll_events (events ++ [e]) s in
  s' = set_stateChanged false (poll_events events s) /\
  frame_step this fuel hc (events ++ [e]) (s, image, texture) =
    Some (s', image, texture).
Proof.
  cbn zeta.
  assert (Hs' : poll_events (events ++ [e]) s =
                set_stateChanged false (poll_events events s)).
  { rewrite poll_events_app, Hopen. unfold handle_event. rewrite Htype.
    rewrite (wheel_scrolled_none e _ Hdelta).
    unfold key_pressed. rewrite Hkey. reflexivity. }
  split; [exact Hs'|].
  unfold frame_step. rewrite Hs'. reflexivity.
Qed.

(** The key Equal and then a key without a case, before the first frame:
    the zoom has changed and nothing is drawn. *)
Lemma unhandled_key_drops_redraw_witness :
  frame_step mb 541 4
    [mkEvent KeyPressed Key_Equal 0%float; mkEvent KeyPressed Key_other 0%float]
    main_start =
  Some (mkViewer (zoom0 * 0.9)%float offset_X0 offset_Y0 0.9%float false true,
        image0, None).
Proof.
  destruct (@unhandled_key_drops_redraw float binary64 binary64_eq mb 541 4
              [mkEvent KeyPressed Key_Equal 0%float]
              (mkEvent KeyPressed Key_other 0%float) main_viewer image0 None
              ltac:(vm_compute; reflexivity) ltac:(reflexivity) ltac:(reflexivity)
              ltac:(split; vm_compute; reflexivity)) as [Hs' Hframe].
  etransitivity; [exact Hframe|].
  apply (f_equal (fun v : Viewer float => Some (v, image0, @None Image))).
  vm_compute. reflexivity.
Defined.

(** ** The main loop *)

Section MainLoop.
Context {D : Type} `{DoubleOps D} `{DoubleEq D}.
Variable this : Mandelbrot.

(** The frame does not depend on the surface it is written to. *)
Lemma frame_any_surface (zoom offset_X offset_Y : D) (STEP : Z) (img : Image) :
  1 <= STEP -> surface img ->
  run_threads this zoom offset_X offset_Y (slices IMAGE_HEIGHT STEP) img =
  run_threads this zoom offset_X offset_Y (slices IMAGE_HEIGHT STEP) image0.
Proof.
  intros HS Hs.
  apply surface_ext;
    [apply run_threads_surface, Hs | apply run_threads_surface, image0_surface |].
  intros x y Hf.
  etransitivity;
    [exact (slices_frame_pixel this zoom offset_X offset_Y STEP img x y HS Hs Hf)|].
  symmetry.
  exact (slices_frame_pixel this zoom offset_X offset_Y STEP image0 x y HS
           image0_surface Hf).
Qed.

Lemma frame_of_same_view (hc : Z) (s s' : Viewer D) :
  same_view s s' -> frame_of this hc s' = frame_of this hc s.
Proof.
  intros (Hz & Hx & Hy). unfold frame_of. rewrite Hz, Hx, Hy. reflexivity.
Qed.

(** A turn of the main loop brings the drawn frame up to date. *)
Lemma frame_step_sync (fuel : nat) (hc : Z) (events : list (Event D))
    (s : Viewer D) (image : Image) (texture : option Image) :
  1 <= hc <= IMAGE_HEIGHT -> (Z.to_nat IMAGE_HEIGHT < fuel)%nat ->
  handled_keys events -> surface image ->
  stateChanged s = true \/
    (image = frame_of this hc s /\ texture = Some image) ->
  exists st' : main_state,
    frame_step this fuel hc events (s, image, texture) = Some st' /\
    in_sync this hc st'.
Proof.
  intros Hhc Hfuel Hkeys Hs Hstart.
  assert (HS : 1 <= IMAGE_HEIGHT / hc) by (apply step_positive_iff; lia).
  unfold frame_step.
  pose proof (poll_events_flag events Hkeys s) as Hflag.
  destruct (stateChanged (poll_events events s)) eqn:Hsc.
  - rewrite UpdateImage_enough_fuel by assumption.
    eexists. split; [reflexivity|].
    unfold in_sync.
    split; [apply run_threads_surface, Hs|].
    split; [reflexivity|].
    split; [|reflexivity].
    unfold frame_of; cbn [set_stateChanged vzoom voffset_X voffset_Y].
    apply frame_any_surface; assumption.
  - destruct Hflag as [Habs|[Hview Hsame]]; [discriminate Habs|].
    destruct Hstart as [Hset|[Himg Htex]];
      [rewrite Hset in Hsame; discriminate Hsame|].
    eexists. split; [reflexivity|].
    unfold in_sync.
    split; [exact Hs|]. split; [exact Hsc|].
    split; [|exact Htex].
    rewrite (frame_of_same_view hc s _ Hview). exact Himg.
Qed.

Lemma main_loop_sync (fuel : nat) (hc : Z) (batches : list (list (Event D))) :
  1 <= hc <= IMAGE_HEIGHT -> (Z.to_nat IMAGE_HEIGHT < fuel)%nat ->
  Forall handled_keys batches ->
  forall st : main_state,
    in_sync this hc st ->
    exists st' : main_state,
      main_loop this fuel hc batches st = Some st' /\ in_sync this hc st'.
Proof.
  intros Hhc Hfuel Hkeys. induction Hkeys as [|events batches He Hkeys IH];
    intros st Hsync; cbn [main_loop].
  - exists st. split; [reflexivity | exact Hsync].
  - destruct (isOpen (fst (fst st))); [|exists st; split; [reflexivity | exact Hsync]].
    destruct st as [[s image] texture].
    destruct Hsync as (Hs & Hsc & Himg & Htex).
    destruct (frame_step_sync fuel hc events s image texture Hhc Hfuel He Hs
                ltac:(right; split; assumption)) as (st1 & Hstep & Hsync1).
    rewrite Hstep. apply IH, Hsync1.
Qed.

End MainLoop.

(** For a hardware concurrency from 1 to [IMAGE_HEIGHT], from a state of
    [main] in which the window is open and a redraw is pending (as it is
    before the loop), over any batches of events, the first one included,
    whose key presses are all of keys [main] has a case for: the loop
    runs, and when it stops, after one turn or more, no redraw is
    pending and the image and the texture of the sprite are the frame of
    the [zoom], [offset_X] and [offset_Y] reached. *)
Theorem drawn_frame_in_sync {D : Type} `{DoubleOps D} `{DoubleEq D}
    (this : Mandelbrot) (fuel : nat) (hc : Z) (events : list (Event D))
    (batches : list (list (Event D))) (s : Viewer D) (image : Image)
    (texture : option Image)
    (Hhc : 1 <= hc <= IMAGE_HEIGHT) (Hfuel : (Z.to_nat IMAGE_HEIGHT < fuel)%nat)
    (Hkeys : Forall handled_keys (events :: batches))
    (Hs : surface image) (Hopen : isOpen s = true) (Hpending : stateChanged s = true) :
  exists (s' : Viewer D) (image' : Image),
    main_loop this fuel hc (events :: batches) (s, image, texture) =
      Some (s', image', Some image') /\
    stateChanged s' = false /\
    image' = frame_of this hc s' /\
    forall x y : Z, in_frame x y ->
      getPixel image' x y =
      Some (pixel_color this (vzoom s') (voffset_X s') (voffset_Y s')
              (y / (IMAGE_HEIGHT / hc) * (IMAGE_HEIGHT / hc)) x y).
Proof.
  inversion Hkeys as [|? ? He Hrest]; subst.
  cbn [main_loop fst]. rewrite Hopen.
  destruct (frame_step_sync this fuel hc events s image texture Hhc Hfuel He Hs
              ltac:(left; exact Hpending)) as (st1 & Hstep & Hsync1).
  rewrite Hstep.
  destruct (main_loop_sync this fuel hc batches Hhc Hfuel Hrest st1 Hsync1)
    as ([[s' image'] texture'] & Hloop & (Hs' & Hsc' & Himg' & Htex')).
  exists s', image'. rewrite Hloop, Htex'.
  split; [reflexivity|]. split; [exact Hsc'|]. split; [exact Himg'|].
  intros x y Hf. rewrite Himg'. unfold frame_of.
  apply slices_frame_pixel;
    [apply step_positive_iff; lia | exact image0_surface | exact Hf].
Qed.

(** [main] on four workers: the first frame, then the key D, then a turn
    of the wheel and the close button. *)
Lemma drawn_frame_in_sync_witness :
  exists (s' : Viewer float) (image' : Image),
    main_loop mb 541 4
      [[]; [mkEvent KeyPressed Key_D 0%float];
       [mkEvent MouseWheelScrolled Key_other 1%float;
        mkEvent Closed Key_other 0%float]]
      main_start = Some (s', image', Some image') /\
    stateChanged s' = false /\
    image' = frame_of mb 4 s'.
Proof.
  destruct (@drawn_frame_in_sync float binary64 binary64_eq mb 541 4 []
              [[mkEvent KeyPressed Key_D 0%float];
               [mkEvent MouseWheelScrolled Key_other 1%float;
                mkEvent Closed Key_other 0%float]]
              main_viewer image0 None)
    as (s' & image' & Hloop & Hsc & Himg & _).
  - unfold IMAGE_HEIGHT. lia.
  - unfold IMAGE_HEIGHT. lia.
  - repeat constructor; cbn; intros; discriminate.
  - exact image0_surface.
  - reflexivity.
  - reflexivity.
  - exists s', image'. split; [exact Hloop|]. split; [exact Hsc | exact Himg].
Defined.

(** ** The keys in exact arithmetic *)












(** ** Closing the window *)

Section Closing.
Context {D : Type} `{DoubleOps D} `{DoubleEq D}.

Lemma poll_events_closed (events : list (Event D)) (s : Viewer D) :
  isOpen s = false -> poll_events events s = s.
Proof. intros Hc. destruct events; cbn [poll_events]; [|rewrite Hc]; reflexivity. Qed.

Lemma handle_event_closing (e : Event D) (s : Viewer D) :
  closing e -> isOpen (handle_event e s) = false.
Proof.
  intros [Htype|[Htype Hkey]]; unfold handle_event; rewrite Htype.
  - reflexivity.
  - destruct (wheel_scrolled_keeps e (key_pressed e s)) as [Hopen _].
    rewrite Hopen. unfold key_pressed. rewrite Hkey. reflexivity.
Qed.

Lemma poll_events_closes (events : list (Event D)) :
  Exists closing events ->
  forall s : Viewer D, isOpen (poll_events events s) = false.
Proof.
  intros Hex. induction Hex as [e events He|e events Hex IH]; intros s;
    cbn [poll_events]; destruct (isOpen s) eqn:Hopen; try exact Hopen.
  - rewrite poll_events_closed; apply handle_event_closing, He.
  - apply IH.
Qed.

End Closing.

(** A turn of the main loop in which the close button or the key Escape
    comes up is the last one: the window is closed after it and the loop
    ends with the state that turn leaves, whatever batches of events are
    still to come. *)
Theorem close_ends_loop {D : Type} `{DoubleOps D} `{DoubleEq D}
    (this : Mandelbrot) (fuel : nat) (hc : Z) (events : list (Event D))
    (batches : list (list (Event D))) (s : Viewer D) (image : Image)
    (texture : option Image)
    (Hopen : isOpen s = true) (Hclose : Exists closing events) :
  isOpen (poll_events events s) = false /\
  main_loop this fuel hc (events :: batches) (s, image, texture) =
    frame_step this fuel hc events (s, image, texture) /\
  forall st' : main_state,
    frame_step this fuel hc events (s, image, texture) = Some st' ->
    isOpen (fst (fst st')) = false.
Proof.
  pose proof (poll_events_closes events Hclose s) as Hclosed.
  assert (Hlast : forall st' : main_state,
            frame_step this fuel hc events (s, image, texture) = Some st' ->
            isOpen (fst (fst st')) = false).
  { intros st'. unfold frame_step.
    destruct (stateChanged (poll_events events s)).
    - destruct (UpdateImage this fuel hc _ _ _ image); try discriminate.
      intros [= <-]. exact Hclosed.
    - intros [= <-]. exact Hclosed. }
  split; [exact Hclosed|]. split; [|exact Hlast].
  cbn [main_loop fst]. rewrite Hopen.
  destruct (frame_step this fuel hc events (s, image, texture)) as [st'|] eqn:Hstep;
    [|reflexivity].
  specialize (Hlast st' eq_refl).
  destruct batches; cbn [main_loop]; [|rewrite Hlast]; reflexivity.
Qed.

(** The key Escape before the first frame, with more events to come. *)
Lemma close_ends_loop_witness :
  main_loop mb 541 4
    [[mkEvent KeyPressed Key_Escape 0%float]; [mkEvent KeyPressed Key_D 0%float]]
    main_start =
  frame_step mb 541 4 [mkEvent KeyPressed Key_Escape 0%float] main_start.
Proof.
  refine (proj1 (proj2 (@close_ends_loop float binary64 binary64_eq mb 541 4
                          [mkEvent KeyPressed Key_Escape 0%float]
                          [[mkEvent KeyPressed Key_D 0%float]]
                          main_viewer image0 None _ _))).
  - reflexivity.
  - constructor. right. split; reflexivity.
Defined.
